(** * GoogleAICacheManager: request building of the content-cache client

    A shallow embedding of [src/server/cache-manager.ts].  The class maps
    five methods (create, list, get, update, delete) onto REST requests.
    The embedding keeps

    - JavaScript strings as [string] (sequences of 8-bit characters; the
      code only ever inspects ASCII characters: '/', 'A'..'Z' and the
      literal [cachedContents/]);
    - the optional fields of the TypeScript interfaces as [option]s, where
      [None] stands for a property that is absent or holds [undefined];
    - [number] as the type [number] below: [NaN], the integers that a
      double holds exactly and prints as their decimal digits, and every
      other number by the text JavaScript prints for it;
    - the objects that the methods copy and then write to as records in a
      heap indexed by locations, so that aliasing between the caller's
      object and the copy is visible;
    - exceptions and the network as an error-and-state monad over the heap
      and the list of requests issued so far. *)

From Stdlib Require Import ZArith String Ascii List DecimalString.
From stdpp Require Import base gmap strings list fin_maps.

Local Open Scope string_scope.
Local Open Scope list_scope.

(** ** JavaScript string primitives used by the source *)

Module JsString.

(** [s.startsWith(p)] *)
Definition startsWith (s p : string) : bool := String.prefix p s.

(** [s.includes(sub)]: [sub] occurs at some position of [s]. *)
Fixpoint includes (s sub : string) : bool :=
  String.prefix sub s ||
  match s with
  | EmptyString => false
  | String _ s' => includes s' sub
  end.

(** [s.split(sep)] for a separator string.  The scan goes left to right;
    at each occurrence of [sep] the piece read so far is emitted and the
    [String.length sep] characters of the occurrence are skipped ([skip]
    counts the ones still to drop).  [acc] is the piece being read. *)
Fixpoint split_go (sep : string) (skip : nat) (acc s : string) : list string :=
  match s with
  | EmptyString => [acc]
  | String c s' =>
      match skip with
      | S k => split_go sep k acc s'
      | O =>
          if String.prefix sep s
          then acc :: split_go sep (String.length sep - 1) EmptyString s'
          else split_go sep 0 (acc +:+ String c EmptyString) s'
      end
  end.

(** With the empty separator JavaScript splits into single characters. *)
Definition split (s sep : string) : list string :=
  match sep with
  | EmptyString => (fun c => String c EmptyString) <$> list_ascii_of_string s
  | _ => split_go sep 0 EmptyString s
  end.

(** The character class [[A-Z]]. *)
Definition isUpperAZ (c : ascii) : bool :=
  let n := nat_of_ascii c in (65 <=? n)%nat && (n <=? 90)%nat.

Definition lowerChar (c : ascii) : ascii :=
  if isUpperAZ c then ascii_of_nat (nat_of_ascii c + 32) else c.

(** [s.toLowerCase()] on the characters the model has. *)
Fixpoint toLowerCase (s : string) : string :=
  match s with
  | EmptyString => EmptyString
  | String c s' => String (lowerChar c) (toLowerCase s')
  end.

(** [s.replace(/[cls]/g, f)]: every character of the class [cls] is a
    match of length one; [f] receives the matched text. *)
Fixpoint replaceClass (cls : ascii -> bool) (f : string -> string) (s : string) : string :=
  match s with
  | EmptyString => EmptyString
  | String c s' =>
      (if cls c then f (String c EmptyString) else String c EmptyString)
        +:+ replaceClass cls f s'
  end.

(** [arr.join(sep)] on an array of strings. *)
Definition join (sep : string) (arr : list string) : string := String.concat sep arr.

(** The decimal digits of an integer, with a minus sign in front of a
    negative one. *)
Definition decimal (n : Z) : string := NilZero.string_of_int (Z.to_int n).

End JsString.

(** ** Numbers

    A JavaScript number is a double.  The code does two things with one:
    it tests it for truthiness, and it prints it (in a template literal,
    with [toString()]).  The type tells numbers apart as far as that goes:

    - [NaN];
    - [Int n] for an integer [n] of magnitude at most 2^53 - 1: these are
      the integers that every double holds exactly, and JavaScript prints
      them as their decimal digits (the two zeros are both [Int 0]: they
      are falsy alike and print alike);
    - [Other text] for any other number, that is a fraction, an integer
      beyond that range or an infinity, given by the text that JavaScript
      prints for it, such as [1.5], [1152921504606847000], [1e+21] or
      [Infinity]; all of these are truthy. *)

Definition isSafeInteger (n : Z) : bool := (Z.abs n <=? 9007199254740991)%Z.

Inductive number :=
| NaN
| Int (n : Z) (safe : Is_true (isSafeInteger n))
| Other (text : string).

Definition zero : number := Int 0 I.

(** [String(x)], [x.toString()] and [x] inside a template literal. *)
Definition numberToString (x : number) : string :=
  match x with
  | NaN => "NaN"
  | Int n _ => JsString.decimal n
  | Other text => text
  end.

(** ** Truthiness

    JavaScript conditions coerce their operand to a boolean: [0], [NaN]
    and the empty string are falsy, as is [undefined]; every array is
    truthy. *)

Class Truthy (A : Type) := truthy : A -> bool.

#[export] Instance truthy_number : Truthy number :=
  fun x =>
    match x with
    | NaN => false
    | Int n _ => negb (n =? 0)%Z
    | Other _ => true
    end.

#[export] Instance truthy_string : Truthy string :=
  fun s => match s with EmptyString => false | String _ _ => true end.

#[export] Instance truthy_array {A : Type} : Truthy (list A) := fun _ => true.

#[export] Instance truthy_optional {A : Type} `{Truthy A} : Truthy (option A) :=
  fun o => match o with Some a => truthy a | None => false end.

(** An optional number inside a template literal. *)
Definition template (n : option number) : string :=
  match n with
  | Some n => numberToString n
  | None => "undefined"
  end.

(** ** Data model *)

(** Nested JSON data (contents, tools, system instruction, responses). The
    methods never look inside it. *)
#[warnings="-register-all"]
Inductive Json :=
| JNull
| JBool (b : bool)
| JNumber (x : number)
| JString (s : string)
| JArray (xs : list Json)
| JObject (kvs : list (string * Json)).

(** Heap locations of objects. *)
Abbreviation loc := positive.

(** The own properties of a cached-content object, as
    [CachedContentCreateParams], [CachedContent] and the update field
    interfaces type them: the four properties that the methods read or
    write, and the remaining properties by name. *)
Record CachedContentFields := mkFields {
  model : option string;
  ttlSeconds : option number;
  ttl : option string;
  expireTime : option string;
  others : gmap string Json
}.

(** The object literal [{}]. *)
Definition emptyObject : CachedContentFields := mkFields None None None None ∅.

(** [o.ttl = v] *)
Definition set_ttl (v : string) (o : CachedContentFields) : CachedContentFields :=
  mkFields (model o) (ttlSeconds o) (Some v) (expireTime o) (others o).

(** [delete o.ttlSeconds] *)
Definition delete_ttlSeconds (o : CachedContentFields) : CachedContentFields :=
  mkFields (model o) None (ttl o) (expireTime o) (others o).

(** [o.model = v] *)
Definition set_model (v : string) (o : CachedContentFields) : CachedContentFields :=
  mkFields (Some v) (ttlSeconds o) (ttl o) (expireTime o) (others o).

(** [CachedContentUpdateParams]: the fields to update, held by reference,
    and the optional update mask. *)
Record CachedContentUpdateParams := mkUpdateParams {
  cachedContent : loc;
  updateMask : option (list string)
}.

(** [ListParams] *)
Record ListParams := mkListParams {
  pageSize : option number;
  pageToken : option string
}.

(** Modelled from the spec: [./constants] is not among the sources; these
    are the five tasks that cache-manager.ts names, and section 6 of the
    spec gives the HTTP method of each. *)
Inductive RpcTask := CREATE | LIST | GET | UPDATE | DELETE.

Inductive HttpMethod := HttpPOST | HttpGET | HttpPATCH | HttpDELETE.

(** Modelled from the spec: the HTTP method of each task (section 6). *)
Definition taskMethod (t : RpcTask) : HttpMethod :=
  match t with
  | CREATE => HttpPOST
  | LIST => HttpGET
  | GET => HttpGET
  | UPDATE => HttpPATCH
  | DELETE => HttpDELETE
  end.

(** The errors of [../errors] that cache-manager.ts throws, the error of a
    failed request (spec section 7: it carries the HTTP status and the
    response body), and the language's own [TypeError]. *)
Inductive Error :=
| GoogleGenerativeAIError (message : string)
| GoogleGenerativeAIRequestInputError (message : string)
| RequestError (status : Z) (response : string)
| TypeError (message : string).

Inductive Completion (A : Type) :=
| Return (a : A)
| Throw (e : Error).
Arguments Return {A} a.
Arguments Throw {A} e.

(** [parseCacheName]: an index past the end of the array of pieces reads
    [undefined], which a URL path renders as the text [undefined]; after a
    successful [startsWith] the array has a second piece (lemma
    [split_second] below). *)
Definition parseCacheName (name : option string) : Completion string :=
  if negb (truthy name)
  then Throw (GoogleGenerativeAIError
                "Invalid cache name. Must be 'cachedContents/name' or 'name'.")
  else
    match name with
    | None => Throw (TypeError "name is undefined")
    | Some name =>
        Return (if JsString.startsWith name "cachedContents/"
                then default "undefined" (JsString.split name "cachedContents/" !! 1%nat)
                else name)
    end.

(** [camelToSnake] *)
Definition camelToSnake (str : string) : string :=
  JsString.replaceClass JsString.isUpperAZ
    (fun letter => "_" +:+ JsString.toLowerCase letter) str.

(** A location that holds no object of [h] and is not [src]. *)
Definition freshFor {A : Type} (src : loc) (h : gmap loc A) : loc :=
  fresh ({[src]} ∪ dom h).

(** ** The manager, its URLs and the effects of a call *)

Section Manager.

(** [RequestOptions], the request headers and [getHeaders] belong to
    [../../types] and [./request], which are not among the sources; the
    methods only pass them on. *)
Context {RequestOptions Headers : Type}.

Record GoogleAICacheManager := mkManager {
  apiKey : string;
  _requestOptions : option RequestOptions
}.

(** Modelled from the spec: the class [CachedContentUrl] of [./request] is
    not among the sources.  A URL is built from a task, the API key and the
    request options; [appendPath] adds a path segment after the collection
    path and [appendParam] adds a query parameter (spec section 6:
    GET /cachedContents/{id}, PATCH /cachedContents/{id}?update_mask=...). *)
Record CachedContentUrl := mkUrl {
  task : RpcTask;
  urlApiKey : string;
  urlRequestOptions : option RequestOptions;
  pathSegments : list string;
  searchParams : list (string * string)
}.

Definition newCachedContentUrl (t : RpcTask) (key : string)
    (opts : option RequestOptions) : CachedContentUrl :=
  mkUrl t key opts [] [].

Definition appendPath (path : string) (url : CachedContentUrl) : CachedContentUrl :=
  mkUrl (task url) (urlApiKey url) (urlRequestOptions url)
        (pathSegments url ++ [path]) (searchParams url).

Definition appendParam (key value : string) (url : CachedContentUrl) : CachedContentUrl :=
  mkUrl (task url) (urlApiKey url) (urlRequestOptions url)
        (pathSegments url) (searchParams url ++ [(key, value)]).

(** The path of a URL below the collection path [base]. *)
Definition pathname (base : string) (url : CachedContentUrl) : string :=
  base +:+ String.concat EmptyString ((fun seg => "/" +:+ seg) <$> pathSegments url).

(** One call of [makeServerRequest]: the URL, the headers and the body.  A
    body is the text [JSON.stringify] makes of an object, which is
    determined by the object's own properties; the model keeps those in
    place of the text, so that the keys of a body can be looked at. *)
Record ServerRequest := mkRequest {
  url : CachedContentUrl;
  headers : Headers;
  body : option CachedContentFields
}.

(** What a call can change: the objects on the heap and the requests
    issued so far (oldest first). *)
Record World := mkWorld {
  heap : gmap loc CachedContentFields;
  network : list ServerRequest
}.

(** [getHeaders], and the remote service with the transport in front of
    it: a request is answered by JSON or fails with a status and a text. *)
Context (getHeaders : CachedContentUrl -> Headers)
        (service : ServerRequest -> Z * string + Json).

(** *** The monad of a method body *)

Definition M (A : Type) : Type := World -> Completion A * World.

Definition ret {A : Type} (a : A) : M A := fun w => (Return a, w).

Definition throw {A : Type} (e : Error) : M A := fun w => (Throw e, w).

Definition bind {A B : Type} (m : M A) (k : A -> M B) : M B :=
  fun w =>
    match m w with
    | (Return a, w') => k a w'
    | (Throw e, w') => (Throw e, w')
    end.

Definition lift {A : Type} (c : Completion A) : M A := fun w => (c, w).

Notation "'let!' x ':=' m 'in' k" := (bind m (fun x => k))
  (at level 10, x name, m at level 100, k at level 200, only parsing).
Notation "m ';;;' k" := (bind m (fun _ => k))
  (at level 100, k at level 200, right associativity, only parsing).

(** [{ ...src }]: a new object with the own properties of [src], at a
    location that is not in use: not allocated, and not [src] itself.  A
    reference to no object (a location off the heap) stands for
    [undefined]: spreading it gives the empty object, and it stays a
    reference to no object. *)
Definition spread (src : loc) : M loc :=
  fun w =>
    let l := freshFor src (heap w) in
    (Return l, mkWorld (<[l := default emptyObject (heap w !! src)]> (heap w)) (network w)).

(** The properties of the object at [l] (reading a property of
    [undefined] is a [TypeError]). *)
Definition readObject (l : loc) : M CachedContentFields :=
  fun w =>
    match heap w !! l with
    | Some o => (Return o, w)
    | None => (Throw (TypeError "Cannot read properties of undefined"), w)
    end.

(** A write [f] to the object at [l]. *)
Definition writeObject (l : loc) (f : CachedContentFields -> CachedContentFields) : M unit :=
  fun w => (Return tt, mkWorld (alter f l (heap w)) (network w)).

(** The receiver of a method call such as [x.includes(...)]. *)
Definition receiver {A : Type} (x : option A) : M A :=
  match x with
  | Some a => ret a
  | None => throw (TypeError "Cannot read properties of undefined")
  end.

(** [JSON.stringify(obj)] *)
Definition JSON_stringify (l : loc) : M CachedContentFields := readObject l.

(** Modelled from the spec: [makeServerRequest] of [./request] is not among
    the sources.  It issues the request and, with the [.json()] that every
    caller applies to the response, yields the JSON of the answer or throws
    the request error (spec section 7). *)
Definition makeServerRequest (u : CachedContentUrl) (h : Headers)
    (b : option CachedContentFields) : M Json :=
  fun w =>
    let req := mkRequest u h b in
    let w' := mkWorld (heap w) (network w ++ [req]) in
    match service req with
    | inr json => (Return json, w')
    | inl (status, text) => (Throw (RequestError status text), w')
    end.

(** *** The methods of [GoogleAICacheManager] *)

Definition create (this : GoogleAICacheManager) (createOptions : loc) : M Json :=
  let! newCachedContent := spread createOptions in
  let! opts := readObject createOptions in
  (if truthy (ttlSeconds opts) then
     (if truthy (expireTime opts) then
        throw (GoogleGenerativeAIRequestInputError
                 "Cannot specify both `ttlSeconds` and `expireTime`. Choose one.")
      else ret tt) ;;;
     writeObject newCachedContent (set_ttl (template (ttlSeconds opts) +:+ "s")) ;;;
     writeObject newCachedContent delete_ttlSeconds
   else ret tt) ;;;
  let! copy := readObject newCachedContent in
  (if negb (truthy (model copy)) then
     throw (GoogleGenerativeAIRequestInputError "Cached content requires a `model` field.")
   else ret tt) ;;;
  let! m := receiver (model copy) in
  (if negb (JsString.includes m "/") then
     writeObject newCachedContent (set_model ("models/" +:+ m))
   else ret tt) ;;;
  let! payload := JSON_stringify newCachedContent in
  makeServerRequest
    (newCachedContentUrl CREATE (apiKey this) (_requestOptions this))
    (getHeaders (newCachedContentUrl CREATE (apiKey this) (_requestOptions this)))
    (Some payload).

(** [list] (the name [list] is Rocq's type of lists). *)
Definition list_ (this : GoogleAICacheManager) (listParams : option ListParams) : M Json :=
  let u := newCachedContentUrl LIST (apiKey this) (_requestOptions this) in
  let u := match listParams ≫= pageSize with
           | Some n => if truthy n then appendParam "pageSize" (numberToString n) u else u
           | None => u
           end in
  let u := match listParams ≫= pageToken with
           | Some t => if truthy t then appendParam "pageToken" t u else u
           | None => u
           end in
  makeServerRequest u (getHeaders u) None.

Definition get (this : GoogleAICacheManager) (name : option string) : M Json :=
  let u := newCachedContentUrl GET (apiKey this) (_requestOptions this) in
  let! segment := lift (parseCacheName name) in
  let u := appendPath segment u in
  makeServerRequest u (getHeaders u) None.

Definition update (this : GoogleAICacheManager) (name : option string)
    (updateParams : CachedContentUpdateParams) : M Json :=
  let u := newCachedContentUrl UPDATE (apiKey this) (_requestOptions this) in
  let! segment := lift (parseCacheName name) in
  let u := appendPath segment u in
  let! formattedCachedContent := spread (cachedContent updateParams) in
  let! fields := readObject (cachedContent updateParams) in
  (if truthy (ttlSeconds fields) then
     writeObject formattedCachedContent (set_ttl (template (ttlSeconds fields) +:+ "s")) ;;;
     writeObject formattedCachedContent delete_ttlSeconds
   else ret tt) ;;;
  let u := match updateMask updateParams with
           | Some mask =>
               if truthy mask
               then appendParam "update_mask" (JsString.join "," (camelToSnake <$> mask)) u
               else u
           | None => u
           end in
  let! payload := JSON_stringify formattedCachedContent in
  makeServerRequest u (getHeaders u) (Some payload).

(** [delete] (the name [delete] is stdpp's map operation). *)
Definition delete_ (this : GoogleAICacheManager) (name : option string) : M unit :=
  let u := newCachedContentUrl DELETE (apiKey this) (_requestOptions this) in
  let! segment := lift (parseCacheName name) in
  let u := appendPath segment u in
  makeServerRequest u (getHeaders u) None ;;;
  ret tt.

(** *** Notions used to state the properties *)

(** The object that [create] and [update] build from the caller's [o]
    when [ttlSeconds] is truthy. *)
Definition withTtl (o : CachedContentFields) : CachedContentFields :=
  if truthy (ttlSeconds o)
  then delete_ttlSeconds (set_ttl (template (ttlSeconds o) +:+ "s") o)
  else o.

(** [writesOnly l' m]: running [m] leaves every object other than the one
    at [l'] as it was. *)
Definition writesOnly {A : Type} (l' : loc) (m : M A) : Prop :=
  forall w l0, l0 <> l' -> heap (m w).2 !! l0 = heap w !! l0.

(** [noInputError m]: whatever the state, [m] does not end by throwing a
    [GoogleGenerativeAIRequestInputError]. *)
Definition noInputError {A : Type} (m : M A) : Prop :=
  forall w msg, (m w).1 <> Throw (GoogleGenerativeAIRequestInputError msg).

End Manager.

(** ** The update-mask rewriting in the words of the specification

    Each uppercase letter of a field name is replaced by an underscore
    followed by its lowercase form; every other character is kept. *)

Definition snakeChar (c : ascii) : list ascii :=
  if JsString.isUpperAZ c then ["_"%char; JsString.lowerChar c] else [c].

Definition snakeCase (field : string) : string :=
  string_of_list_ascii (flat_map snakeChar (list_ascii_of_string field)).

(** ** Notions used to state further properties *)

(** The text of [s] before the first occurrence of [sep]; all of [s] when
    [sep] does not occur. *)
Fixpoint untilMatch (sep s : string) : string :=
  match s with
  | EmptyString => EmptyString
  | String c s' =>
      if String.prefix sep s then EmptyString else String c (untilMatch sep s')
  end.

(** The number of characters of [s] in the class [[A-Z]]. *)
Fixpoint countUpper (s : string) : nat :=
  match s with
  | EmptyString => 0
  | String c s' => (if JsString.isUpperAZ c then 1 else 0) + countUpper s'
  end.

(** ** Sample calls

    A manager without request options, a transport that answers every
    request with [null], and a heap that holds the caller's object at
    location 1. *)

Definition noHeaders : @CachedContentUrl unit -> unit := fun _ => tt.

Definition nullService : @ServerRequest unit unit -> Z * string + Json :=
  fun _ => inr JNull.

Definition sampleManager : @GoogleAICacheManager unit := mkManager "API_KEY" None.

Definition sampleWorld (o : CachedContentFields) : @World unit unit :=
  mkWorld {[ 1%positive := o ]} [].

Definition sampleContents : gmap string Json :=
  {[ "contents" := JArray [JObject [("role", JString "user")]] ]}.

(** [{model: "gemini-1.5-flash", ttlSeconds: 300, contents: [...]}] *)
Definition flashOptions : CachedContentFields :=
  mkFields (Some "gemini-1.5-flash") (Some (Int 300 I)) None None sampleContents.

(** [{model: "gemini-1.5-flash", ttlSeconds: 300, expireTime: "2030-01-01T00:00:00Z"}] *)
Definition bothOptions : CachedContentFields :=
  mkFields (Some "gemini-1.5-flash") (Some (Int 300 I)) None (Some "2030-01-01T00:00:00Z") ∅.

(** [{model: "gemini-1.5-flash", ttlSeconds: 0, expireTime: "2030-01-01T00:00:00Z"}] *)
Definition zeroTtlOptions : CachedContentFields :=
  mkFields (Some "gemini-1.5-flash") (Some zero) None (Some "2030-01-01T00:00:00Z") ∅.

(** [{contents: [...]}] *)
Definition noModelOptions : CachedContentFields :=
  mkFields None None None None sampleContents.

(** [{ttlSeconds: 600, expireTime: "2030-01-01T00:00:00Z"}] *)
Definition bothUpdateFields : CachedContentFields :=
  mkFields None (Some (Int 600 I)) None (Some "2030-01-01T00:00:00Z") ∅.

(** [{ttlSeconds: 0, expireTime: "2030-01-01T00:00:00Z"}] *)
Definition zeroTtlUpdateFields : CachedContentFields :=
  mkFields None (Some zero) None (Some "2030-01-01T00:00:00Z") ∅.

(** The body and the request that [create] makes of [flashOptions]. *)
Definition flashPayload : CachedContentFields :=
  mkFields (Some "models/gemini-1.5-flash") None (Some "300s") None sampleContents.

Definition flashRequest : @ServerRequest unit unit :=
  mkRequest (newCachedContentUrl CREATE "API_KEY" None) tt (Some flashPayload).

(** ** Properties *)

Lemma freshFor_spec {A : Type} (src : loc) (h : gmap loc A) :
  freshFor src h <> src /\ h !! freshFor src h = None.
Proof.
  pose proof (is_fresh ({[src]} ∪ dom h)) as Hfresh. fold (freshFor src h) in Hfresh.
  split.
  - intros Heq. apply Hfresh. rewrite Heq. set_solver.
  - apply not_elem_of_dom. set_solver.
Qed.

Lemma fresh_not_allocated {A : Type} (src : loc) (h : gmap loc A) (l : loc) (a : A) :
  h !! l = Some a -> l <> freshFor src h.
Proof.
  intros Hl ->. destruct (freshFor_spec src h) as [_ Hnone]. congruence.
Qed.

(** *** Facts about [split] *)

Lemma append_empty_r (s : string) : s +:+ EmptyString = s.
Proof.
  induction s as [|c s IH]; unfold append; fold append; [reflexivity | now rewrite IH].
Qed.

Lemma append_assoc (s t r : string) : (s +:+ t) +:+ r = s +:+ (t +:+ r).
Proof.
  induction s as [|c s IH]; unfold append; fold append; [reflexivity | now rewrite IH].
Qed.

Lemma prefix_append (p s : string) : String.prefix p (p +:+ s) = true.
Proof.
  induction p as [|c p IH]; unfold append; fold append; cbn [String.prefix];
    [destruct s; reflexivity|].
  destruct (ascii_dec c c); [exact IH | congruence].
Qed.

(** Scanning a text in which the separator does not occur yields the text
    as one piece. *)
Lemma split_go_no_match (sep s acc : string) :
  JsString.includes s sep = false ->
  JsString.split_go sep 0 acc s = [acc +:+ s].
Proof.
  revert acc. induction s as [|c s IH]; intros acc Hinc.
  - simpl. now rewrite append_empty_r.
  - change (JsString.includes (String c s) sep)
      with (String.prefix sep (String c s) || JsString.includes s sep) in Hinc.
    apply orb_false_iff in Hinc as [Hp Hs].
    cbn [JsString.split_go]. rewrite Hp, (IH _ Hs), append_assoc. reflexivity.
Qed.

(** Skipping the rest of an occurrence. *)
Lemma split_go_skip (sep p s acc : string) :
  s <> EmptyString \/ p = EmptyString ->
  JsString.split_go sep (String.length p) acc (p +:+ s) = JsString.split_go sep 0 acc s.
Proof.
  revert acc. induction p as [|c p IH]; intros acc Hs; [reflexivity|].
  destruct Hs as [Hs|Hs]; [|discriminate].
  unfold append; fold append. cbn [String.length JsString.split_go].
  apply IH. now left.
Qed.

Lemma split_go_skip_all (sep p acc : string) :
  JsString.split_go sep (String.length p) acc p = [acc].
Proof.
  revert acc. induction p as [|c p IH]; intros acc; [reflexivity|].
  cbn [String.length JsString.split_go]. apply IH.
Qed.

(** [(sep + id).split(sep)] is [["", id]] when [sep] does not occur in [id]. *)
Lemma split_prefixed (sep id : string) :
  JsString.includes id sep = false ->
  JsString.split (sep +:+ id) sep = [EmptyString; id].
Proof.
  intros Hinc. destruct sep as [|c sep].
  { destruct id; discriminate. }
  unfold JsString.split.
  change (String c sep +:+ id) with (String c (sep +:+ id)).
  cbn [JsString.split_go].
  change (String c (sep +:+ id)) with (String c sep +:+ id).
  rewrite prefix_append.
  replace (String.length (String c sep) - 1) with (String.length sep)
    by (cbn [String.length]; lia).
  f_equal. destruct id as [|d id].
  - rewrite append_empty_r. apply split_go_skip_all.
  - rewrite split_go_skip by (left; discriminate).
    now rewrite split_go_no_match.
Qed.

Lemma split_go_nonempty (sep : string) (k : nat) (acc s : string) :
  exists x rest, JsString.split_go sep k acc s = x :: rest.
Proof.
  revert k acc. induction s as [|c s IH]; intros k acc; cbn [JsString.split_go].
  - eauto.
  - destruct k; [|apply IH].
    destruct (String.prefix sep (String c s)); [eauto | apply IH].
Qed.

(** After [s.startsWith(sep)], [s.split(sep)] has a second piece. *)
Lemma split_second (sep s : string) :
  sep <> EmptyString ->
  JsString.startsWith s sep = true ->
  is_Some (JsString.split s sep !! 1%nat).
Proof.
  intros Hsep Hp. unfold JsString.startsWith in Hp.
  destruct sep as [|c sep]; [contradiction|].
  destruct s as [|d s]; [discriminate|].
  unfold JsString.split. cbn [JsString.split_go]. rewrite Hp.
  destruct (split_go_nonempty (String c sep) (String.length (String c sep) - 1)
              EmptyString s) as (x & rest & ->).
  simpl. eauto.
Qed.

(** *** Facts about [parseCacheName] *)

Lemma parseCacheName_absent : exists msg, parseCacheName None = Throw (GoogleGenerativeAIError msg).
Proof. eexists. reflexivity. Qed.

Lemma parseCacheName_empty :
  exists msg, parseCacheName (Some EmptyString) = Throw (GoogleGenerativeAIError msg).
Proof. eexists. reflexivity. Qed.

Lemma parseCacheName_bare (name : string) :
  name <> EmptyString ->
  JsString.startsWith name "cachedContents/" = false ->
  parseCacheName (Some name) = Return name.
Proof.
  intros Hne Hp. unfold parseCacheName.
  destruct name as [|c name]; [contradiction|]. simpl negb. cbv iota.
  now rewrite Hp.
Qed.

Lemma parseCacheName_prefixed (id : string) :
  JsString.includes id "cachedContents/" = false ->
  parseCacheName (Some ("cachedContents/" +:+ id)) = Return id.
Proof.
  intros Hinc. unfold parseCacheName.
  change (negb (truthy (Some ("cachedContents/" +:+ id)))) with false. cbv iota.
  unfold JsString.startsWith. rewrite prefix_append, (split_prefixed _ _ Hinc).
  reflexivity.
Qed.

(** *** Where [split] cuts *)

Lemma prefix_empty (s : string) : String.prefix EmptyString s = true.
Proof. destruct s; reflexivity. Qed.

Lemma prefix_decompose (p s : string) :
  String.prefix p s = true -> exists t, s = p +:+ t.
Proof.
  revert s. induction p as [|c p IH]; intros s Hp.
  - exists s. reflexivity.
  - destruct s as [|d s]; [discriminate|]. cbn [String.prefix] in Hp.
    destruct (ascii_dec c d) as [->|]; [|discriminate].
    destruct (IH s Hp) as [t ->]. exists t. reflexivity.
Qed.

Lemma prefix_transitive (p a b : string) :
  String.prefix p a = true -> String.prefix a b = true -> String.prefix p b = true.
Proof.
  revert a b. induction p as [|c p IH]; intros a b Hpa Hab.
  - apply prefix_empty.
  - destruct a as [|d a]; [discriminate|]. destruct b as [|e b]; [discriminate|].
    cbn [String.prefix] in *.
    destruct (ascii_dec c d) as [->|]; [|discriminate].
    destruct (ascii_dec d e) as [->|]; [|discriminate].
    destruct (ascii_dec e e); [|congruence]. eauto.
Qed.

Lemma includes_cons (c : ascii) (s sub : string) :
  JsString.includes (String c s) sub
    = String.prefix sub (String c s) || JsString.includes s sub.
Proof. reflexivity. Qed.

Lemma untilMatch_prefix (sep s : string) : String.prefix (untilMatch sep s) s = true.
Proof.
  induction s as [|c s IH]; [reflexivity|]. cbn [untilMatch].
  destruct (String.prefix sep (String c s)); [reflexivity|].
  cbn [String.prefix]. destruct (ascii_dec c c); [exact IH | congruence].
Qed.

(** The text before the first occurrence holds no occurrence. *)
Lemma untilMatch_no_match (sep s : string) :
  sep <> EmptyString -> JsString.includes (untilMatch sep s) sep = false.
Proof.
  intros Hsep. induction s as [|c s IH].
  - destruct sep; [contradiction | reflexivity].
  - cbn [untilMatch]. destruct (String.prefix sep (String c s)) eqn:Hp.
    + destruct sep; [contradiction | reflexivity].
    + rewrite includes_cons, IH, orb_false_r.
      destruct (String.prefix sep (String c (untilMatch sep s))) eqn:Hq; [|reflexivity].
      rewrite <- Hp. symmetry. apply (prefix_transitive _ _ _ Hq).
      cbn [String.prefix]. destruct (ascii_dec c c); [|congruence].
      apply untilMatch_prefix.
Qed.

Lemma untilMatch_all (sep s : string) :
  JsString.includes s sep = false -> untilMatch sep s = s.
Proof.
  induction s as [|c s IH]; [reflexivity|]. rewrite includes_cons.
  intros [Hp Hs]%orb_false_iff. cbn [untilMatch]. now rewrite Hp, IH.
Qed.

Lemma untilMatch_cut (sep s : string) :
  JsString.includes s sep = true ->
  exists tail, s = untilMatch sep s +:+ sep +:+ tail.
Proof.
  induction s as [|c s IH].
  - destruct sep; [|discriminate]. intros _. exists EmptyString. reflexivity.
  - rewrite includes_cons. cbn [untilMatch].
    destruct (String.prefix sep (String c s)) eqn:Hp.
    + intros _. destruct (prefix_decompose _ _ Hp) as [t Ht]. exists t. exact Ht.
    + cbn [orb]. intros Hs. destruct (IH Hs) as [t Ht]. exists t.
      change (String c (untilMatch sep s) +:+ sep +:+ t)
        with (String c (untilMatch sep s +:+ sep +:+ t)).
      now rewrite <- Ht.
Qed.

(** The first piece that the scan emits is the text up to the first
    occurrence of the separator. *)
Lemma split_go_first (sep acc s : string) :
  exists rest, JsString.split_go sep 0 acc s = (acc +:+ untilMatch sep s) :: rest.
Proof.
  revert acc. induction s as [|c s IH]; intros acc.
  - exists []. cbn [JsString.split_go untilMatch]. now rewrite append_empty_r.
  - cbn [JsString.split_go untilMatch].
    destruct (String.prefix sep (String c s)).
    + eexists. now rewrite append_empty_r.
    + destruct (IH (acc +:+ String c EmptyString)) as [rest ->].
      exists rest. now rewrite append_assoc.
Qed.

Lemma split_prefixed_second (sep s : string) :
  sep <> EmptyString ->
  exists rest, JsString.split (sep +:+ s) sep = EmptyString :: untilMatch sep s :: rest.
Proof.
  intros Hsep. destruct sep as [|c sep]; [contradiction|].
  unfold JsString.split.
  change (String c sep +:+ s) with (String c (sep +:+ s)).
  cbn [JsString.split_go].
  change (String c (sep +:+ s)) with (String c sep +:+ s).
  rewrite prefix_append.
  replace (String.length (String c sep) - 1) with (String.length sep)
    by (cbn [String.length]; lia).
  destruct s as [|d s].
  - rewrite append_empty_r, split_go_skip_all. exists []. reflexivity.
  - rewrite split_go_skip by (left; discriminate).
    destruct (split_go_first (String c sep) EmptyString (String d s)) as [rest ->].
    exists rest. reflexivity.
Qed.

(** [parseCacheName] on any name that starts with the prefix. *)
Lemma parseCacheName_cut (rest : string) :
  parseCacheName (Some ("cachedContents/" +:+ rest))
    = Return (untilMatch "cachedContents/" rest).
Proof.
  unfold parseCacheName.
  change (negb (truthy (Some ("cachedContents/" +:+ rest)))) with false. cbv iota.
  unfold JsString.startsWith. rewrite prefix_append.
  destruct (split_prefixed_second "cachedContents/" rest) as [more ->]; [discriminate|].
  reflexivity.
Qed.

(** X4. For every name [cachedContents/rest], [parseCacheName] returns a
    segment in which the prefix text does not occur; the segment is [rest]
    itself exactly when the prefix text does not occur in [rest], and
    otherwise [rest] is the segment followed by the prefix text and a
    tail, which is dropped. *)
Theorem parseCacheName_prefixed_segment (rest : string) :
  exists segment,
    parseCacheName (Some ("cachedContents/" +:+ rest)) = Return segment
    /\ JsString.includes segment "cachedContents/" = false
    /\ (segment = rest <-> JsString.includes rest "cachedContents/" = false)
    /\ (JsString.includes rest "cachedContents/" = true ->
        exists tail, rest = segment +:+ "cachedContents/" +:+ tail).
Proof.
  exists (untilMatch "cachedContents/" rest).
  assert (Hno := untilMatch_no_match "cachedContents/" rest ltac:(discriminate)).
  split; [apply parseCacheName_cut|]. split; [exact Hno|]. split.
  - split; [intros Heq; now rewrite Heq in Hno | apply untilMatch_all].
  - apply untilMatch_cut.
Qed.

(** X5. Normalising twice is normalising once: a segment that
    [parseCacheName] returns, when it is not empty, is returned unchanged
    when it is passed as a name itself. *)
Theorem parseCacheName_idempotent (name : option string) (segment : string) :
  parseCacheName name = Return segment ->
  segment <> EmptyString ->
  parseCacheName (Some segment) = Return segment.
Proof.
  intros Hp Hne.
  assert (Hbare : JsString.startsWith segment "cachedContents/" = false
                  -> parseCacheName (Some segment) = Return segment)
    by (now apply parseCacheName_bare).
  destruct name as [[|c name]|]; [discriminate| |discriminate].
  destruct (JsString.startsWith (String c name) "cachedContents/") eqn:Hs.
  - unfold JsString.startsWith in Hs.
    destruct (prefix_decompose _ _ Hs) as [rest Hrest].
    rewrite Hrest, parseCacheName_cut in Hp. injection Hp as <-.
    apply Hbare. unfold JsString.startsWith.
    pose proof (untilMatch_no_match "cachedContents/" rest ltac:(discriminate)) as Hno.
    destruct (untilMatch "cachedContents/" rest) as [|d u]; [contradiction|].
    rewrite includes_cons in Hno. now apply orb_false_iff in Hno as [Hpre _].
  - unfold parseCacheName in Hp. simpl negb in Hp. cbv iota in Hp.
    rewrite Hs in Hp. injection Hp as <-. now apply Hbare.
Qed.

(** *** Facts about [camelToSnake] *)

Lemma camelToSnake_step (c : ascii) (s : string) :
  camelToSnake (String c s) =
    if JsString.isUpperAZ c
    then String "_" (String (JsString.lowerChar c) (camelToSnake s))
    else String c (camelToSnake s).
Proof.
  unfold camelToSnake. cbn [JsString.replaceClass].
  destruct (JsString.isUpperAZ c); reflexivity.
Qed.

Lemma lowerChar_not_upper (c : ascii) :
  JsString.isUpperAZ c = true -> JsString.isUpperAZ (JsString.lowerChar c) = false.
Proof.
  destruct c as [[] [] [] [] [] [] [] []]; vm_compute; congruence.
Qed.

Lemma camelToSnake_fixed (s : string) :
  (forall c, In c (list_ascii_of_string s) -> JsString.isUpperAZ c = false) ->
  camelToSnake s = s.
Proof.
  induction s as [|c s IH]; intros Hlow; [reflexivity|].
  rewrite camelToSnake_step, (Hlow c) by (left; reflexivity).
  rewrite IH; [reflexivity|]. intros d Hd. apply Hlow. now right.
Qed.

Lemma camelToSnake_lowercase (s : string) (c : ascii) :
  In c (list_ascii_of_string (camelToSnake s)) -> JsString.isUpperAZ c = false.
Proof.
  induction s as [|d s IH]; [contradiction|].
  rewrite camelToSnake_step. destruct (JsString.isUpperAZ d) eqn:Hd.
  - intros [<- | [<- | Hin]]; [reflexivity | now apply lowerChar_not_upper | auto].
  - intros [<- | Hin]; [exact Hd | auto].
Qed.

(** X6. The text that [camelToSnake] returns has no letter of [A-Z] left;
    a text without such letters is returned as it is, so rewriting a
    rewritten name changes nothing (and a name and its rewriting, such as
    [aB] and [a_b], are sent as the same mask entry). *)
Theorem camelToSnake_idempotent (str : string) :
  (forall c, In c (list_ascii_of_string (camelToSnake str)) -> JsString.isUpperAZ c = false)
  /\ ((forall c, In c (list_ascii_of_string str) -> JsString.isUpperAZ c = false) ->
      camelToSnake str = str)
  /\ camelToSnake (camelToSnake str) = camelToSnake str.
Proof.
  split; [apply camelToSnake_lowercase|].
  split; [apply camelToSnake_fixed|].
  apply camelToSnake_fixed, camelToSnake_lowercase.
Qed.

(** X7. [camelToSnake] works letter by letter: it distributes over
    concatenation, and the result is longer than the name by the number
    of its [A-Z] letters. *)
Theorem camelToSnake_append_length (s t : string) :
  camelToSnake (s +:+ t) = camelToSnake s +:+ camelToSnake t
  /\ String.length (camelToSnake s) = String.length s + countUpper s.
Proof.
  split.
  - induction s as [|c s IH]; [reflexivity|].
    change (String c s +:+ t) with (String c (s +:+ t)).
    rewrite !camelToSnake_step, IH. destruct (JsString.isUpperAZ c); reflexivity.
  - induction s as [|c s IH]; [reflexivity|].
    rewrite camelToSnake_step. cbn [countUpper String.length].
    destruct (JsString.isUpperAZ c); cbn [String.length]; rewrite IH; lia.
Qed.

(** *** [join] followed by [split] *)

Lemma includes_char (c : ascii) (s : string) :
  JsString.includes s (String c EmptyString) = true <-> In c (list_ascii_of_string s).
Proof.
  induction s as [|d s IH].
  - split; [discriminate | contradiction].
  - rewrite includes_cons. cbn [String.prefix list_ascii_of_string In].
    destruct (ascii_dec c d) as [Hc|Hc]; cbn [orb].
    + rewrite prefix_empty. split; [intros _; left; congruence | reflexivity].
    + rewrite IH. split; [auto | intros [?|?]; [congruence | assumption]].
Qed.

Lemma split_go_char (c : ascii) (x acc rest : string) :
  ~ In c (list_ascii_of_string x) ->
  JsString.split_go (String c EmptyString) 0 acc (x +:+ String c rest)
    = (acc +:+ x) :: JsString.split_go (String c EmptyString) 0 EmptyString rest.
Proof.
  revert acc. induction x as [|d x IH]; intros acc Hx.
  - change (EmptyString +:+ String c rest) with (String c rest).
    cbn [JsString.split_go String.prefix String.length Nat.sub].
    destruct (ascii_dec c c); [|congruence].
    now rewrite prefix_empty, append_empty_r.
  - change (String d x +:+ String c rest) with (String d (x +:+ String c rest)).
    cbn [JsString.split_go String.prefix].
    destruct (ascii_dec c d) as [->|_]; [destruct Hx; now left|].
    rewrite IH by (intros Hin; apply Hx; now right).
    now rewrite append_assoc.
Qed.

(** Splitting a joined array at the commas gives the array back, when the
    array is not empty and no element contains a comma. *)
Lemma split_join_comma (arr : list string) :
  arr <> [] ->
  Forall (fun field => ~ In ","%char (list_ascii_of_string field)) arr ->
  JsString.split (JsString.join "," arr) "," = arr.
Proof.
  intros Hne Hall. unfold JsString.split, JsString.join.
  induction Hall as [|x arr Hx Hall IH]; [contradiction|].
  destruct arr as [|y arr].
  - cbn [String.concat]. rewrite split_go_no_match; [reflexivity|].
    destruct (JsString.includes x ",") eqn:Hinc; [|reflexivity].
    now apply includes_char in Hinc.
  - cbn [String.concat] in *.
    change ("," +:+ ?s) with (String ","%char s).
    rewrite (split_go_char ","%char x EmptyString _ Hx).
    rewrite IH by discriminate. reflexivity.
Qed.

Lemma camelToSnake_keeps_comma_free (s : string) :
  ~ In ","%char (list_ascii_of_string s) ->
  ~ In ","%char (list_ascii_of_string (camelToSnake s)).
Proof.
  induction s as [|c s IH]; [auto|]. intros Hs.
  assert (Hc : c <> ","%char) by (intros ->; apply Hs; now left).
  assert (Hrest : ~ In ","%char (list_ascii_of_string (camelToSnake s)))
    by (apply IH; intros Hin; apply Hs; now right).
  rewrite camelToSnake_step. destruct (JsString.isUpperAZ c) eqn:Hup.
  - intros [Heq | [Heq | Hin]]; [discriminate | | auto].
    revert Hup Heq. clear.
    destruct c as [[] [] [] [] [] [] [] []]; vm_compute; congruence.
  - intros [Heq | Hin]; [congruence | auto].
Qed.

#[local] Arguments JsString.includes : simpl never.
#[local] Arguments JsString.decimal : simpl never.
#[local] Arguments numberToString : simpl never.
#[local] Arguments JsString.join : simpl never.
#[local] Arguments JsString.split : simpl never.
#[local] Arguments JsString.startsWith : simpl never.
#[local] Arguments camelToSnake : simpl never.

(** Runs the monadic steps whose outcome is determined. *)
Ltac run :=
  repeat (unfold bind, spread, readObject, writeObject, JSON_stringify, receiver,
            ret, throw, lift;
          simpl;
          rewrite ?alter_insert_eq, ?lookup_insert_eq).

Section Properties.

Context {RequestOptions Headers : Type}.
Context (getHeaders : @CachedContentUrl RequestOptions -> Headers)
        (service : @ServerRequest RequestOptions Headers -> Z * string + Json).

Implicit Types (this : @GoogleAICacheManager RequestOptions).
Implicit Types (w : @World RequestOptions Headers).
Implicit Types (o : CachedContentFields) (l : loc).

(** [create] in closed form: the copy lives at a fresh location, and the
    outcome is decided by the fields of the caller's object. *)
Lemma create_run this l o w :
  heap w !! l = Some o ->
  create getHeaders service this l w =
    let l' := freshFor l (heap w) in
    let u := newCachedContentUrl CREATE (apiKey this) (_requestOptions this) in
    if truthy (ttlSeconds o) && truthy (expireTime o) then
      (Throw (GoogleGenerativeAIRequestInputError
                "Cannot specify both `ttlSeconds` and `expireTime`. Choose one."),
       mkWorld (<[l' := o]> (heap w)) (network w))
    else
      match model o with
      | Some (String c m) =>
          let p := if JsString.includes (String c m) "/"
                   then withTtl o
                   else set_model ("models/" +:+ String c m) (withTtl o) in
          makeServerRequest service u (getHeaders u) (Some p)
            (mkWorld (<[l' := p]> (heap w)) (network w))
      | _ =>
          (Throw (GoogleGenerativeAIRequestInputError
                    "Cached content requires a `model` field."),
           mkWorld (<[l' := withTtl o]> (heap w)) (network w))
      end.
Proof.
  intros Hl. pose proof (fresh_not_allocated l _ _ _ Hl) as Hne.
  unfold create, withTtl. run.
  rewrite lookup_insert_ne by congruence. rewrite Hl. run.
  destruct (truthy (ttlSeconds o)) eqn:Ht; run.
  - destruct (truthy (expireTime o)) eqn:He; run; [reflexivity|].
    destruct (model o) as [[|c m]|] eqn:Hm; run; try reflexivity.
    destruct (JsString.includes (String c m) "/"); run; reflexivity.
  - destruct (model o) as [[|c m]|] eqn:Hm; run; try reflexivity.
    destruct (JsString.includes (String c m) "/"); run; reflexivity.
Qed.

Lemma makeServerRequest_world u h b w :
  (makeServerRequest service u h b w).2 = mkWorld (heap w) (network w ++ [mkRequest u h b]).
Proof. unfold makeServerRequest. destruct (service _) as [[? ?]|?]; reflexivity. Qed.

Lemma makeServerRequest_no_input_error u h b w msg :
  (makeServerRequest service u h b w).1 <> Throw (GoogleGenerativeAIRequestInputError msg).
Proof. unfold makeServerRequest. destruct (service _) as [[? ?]|?]; discriminate. Qed.

Lemma Int_zero (safe : Is_true (isSafeInteger 0)) : Int 0 safe = zero.
Proof. unfold zero. f_equal. apply proof_irrel. Qed.

(** The truthy numbers are those other than [NaN] and 0. *)
Lemma truthy_number_Some (x : number) : x <> NaN -> x <> zero -> truthy (Some x) = true.
Proof.
  intros Hnan Hzero. destruct x as [|n safe|text]; [contradiction| |reflexivity].
  unfold truthy, truthy_optional, truthy, truthy_number.
  destruct (Z.eqb_spec n 0) as [->|]; [|reflexivity].
  destruct Hzero. apply Int_zero.
Qed.

Lemma falsy_number (x : number) : truthy x = false <-> x = NaN \/ x = zero.
Proof.
  split.
  - destruct x as [|n safe|text]; [now left | | discriminate].
    unfold truthy, truthy_number. destruct (Z.eqb_spec n 0) as [->|]; [|discriminate].
    intros _. right. apply Int_zero.
  - intros [-> | ->]; reflexivity.
Qed.

Lemma truthy_string_Some (s : string) : s <> EmptyString -> truthy (Some s) = true.
Proof. destruct s; [contradiction | reflexivity]. Qed.

(** [s.includes("/")] holds exactly when '/' is one of the characters of [s]. *)
Lemma includes_slash (s : string) :
  JsString.includes s "/" = true <-> In "/"%char (list_ascii_of_string s).
Proof.
  induction s as [|c s IH].
  - split; [discriminate | contradiction].
  - change (JsString.includes (String c s) "/")
      with (String.prefix "/" (String c s) || JsString.includes s "/").
    cbn [String.prefix list_ascii_of_string In].
    destruct (ascii_dec "/" c) as [Hc|Hc]; cbn [orb].
    + split; [intros _; left; congruence | intros _; destruct s; reflexivity].
    + rewrite IH. split; [auto | intros [?|?]; [congruence | assumption]].
Qed.

(** C1 (as amended). When [ttlSeconds] is a number other than 0 and [NaN]
    and [expireTime] is a non-empty string, [create] throws
    [GoogleGenerativeAIRequestInputError], and no request has been issued. *)
Theorem create_rejects_ttl_with_expiry this l o w (x : number) (e : string) :
  heap w !! l = Some o ->
  ttlSeconds o = Some x -> x <> NaN -> x <> zero ->
  expireTime o = Some e -> e <> EmptyString ->
  exists msg,
    (create getHeaders service this l w).1 = Throw (GoogleGenerativeAIRequestInputError msg)
    /\ network (create getHeaders service this l w).2 = network w.
Proof.
  intros Hl Ht Hnan Hn He Hne.
  rewrite (create_run _ _ _ _ Hl). simpl.
  rewrite Ht, He, truthy_number_Some, truthy_string_Some by assumption. simpl.
  eexists. split; reflexivity.
Qed.

(** C5. When the [model] field of the options is missing, [create] throws
    [GoogleGenerativeAIRequestInputError] (and issues no request). *)
Theorem create_requires_model this l o w :
  heap w !! l = Some o ->
  model o = None ->
  exists msg,
    (create getHeaders service this l w).1 = Throw (GoogleGenerativeAIRequestInputError msg)
    /\ network (create getHeaders service this l w).2 = network w.
Proof.
  intros Hl Hm.
  rewrite (create_run _ _ _ _ Hl). simpl. rewrite Hm.
  destruct (truthy (ttlSeconds o) && truthy (expireTime o));
    eexists; split; reflexivity.
Qed.

(** C3. For options whose [model] is the identifier [m]: every request
    that [create] sends carries a body whose [model] is [models/m] when
    [m] has no '/' character and [m] itself when it has one; and a request
    is sent whenever [m] is not empty and the options pass the check of
    [ttlSeconds] against [expireTime]. *)
Theorem create_model_normalized this l o w (m : string) :
  heap w !! l = Some o ->
  model o = Some m ->
  (m <> EmptyString ->
   truthy (ttlSeconds o) && truthy (expireTime o) = false ->
   exists req, network (create getHeaders service this l w).2 = network w ++ [req])
  /\
  (forall req,
     network (create getHeaders service this l w).2 = network w ++ [req] ->
     exists b,
       body req = Some b
       /\ (~ In "/"%char (list_ascii_of_string m) -> model b = Some ("models/" +:+ m))
       /\ (In "/"%char (list_ascii_of_string m) -> model b = Some m)).
Proof.
  intros Hl Hm.
  rewrite (create_run _ _ _ _ Hl). simpl. rewrite Hm.
  assert (Hnil : forall (A : Type) (xs : list A) (x : A), xs <> xs ++ [x]).
  { intros A xs x Heq. apply (f_equal length) in Heq.
    rewrite length_app in Heq. simpl in Heq. lia. }
  split.
  - intros Hne ->. destruct m as [|c m]; [contradiction|].
    rewrite makeServerRequest_world. simpl. eauto.
  - intros req.
    destruct (truthy (ttlSeconds o) && truthy (expireTime o)); simpl.
    { intros Heq. destruct (Hnil _ _ _ Heq). }
    destruct m as [|c m]; simpl.
    { intros Heq. destruct (Hnil _ _ _ Heq). }
    rewrite makeServerRequest_world. simpl.
    intros Heq. apply app_inv_head in Heq. injection Heq as <-. simpl.
    eexists. split; [reflexivity|].
    destruct (JsString.includes (String c m) "/") eqn:Hinc.
    + apply includes_slash in Hinc. split; [intros []; exact Hinc|].
      intros _. unfold withTtl. destruct (truthy (ttlSeconds o)); simpl; exact Hm.
    + split; [reflexivity|].
      intros Hin. apply (includes_slash (String c m)) in Hin. congruence.
Qed.

(** C6. [create({model: "gemini-1.5-flash", ttlSeconds: 300, contents})]
    sends one request; its body has [model] equal to
    [models/gemini-1.5-flash], [ttl] equal to [300s] and no [ttlSeconds],
    and passes the other properties on. *)
Theorem create_flash_300 this l o w :
  heap w !! l = Some o ->
  model o = Some "gemini-1.5-flash" ->
  ttlSeconds o = Some (Int 300 I) ->
  expireTime o = None ->
  exists req b,
    network (create getHeaders service this l w).2 = network w ++ [req]
    /\ taskMethod (task (url req)) = HttpPOST
    /\ body req = Some b
    /\ model b = Some "models/gemini-1.5-flash"
    /\ ttl b = Some "300s"
    /\ ttlSeconds b = None
    /\ others b = others o.
Proof.
  intros Hl Hm Ht He.
  rewrite (create_run _ _ _ _ Hl). simpl. rewrite Hm, Ht, He. simpl.
  rewrite makeServerRequest_world. simpl.
  do 2 eexists. split; [reflexivity|]. simpl.
  unfold withTtl. rewrite Ht. simpl.
  repeat split; reflexivity.
Qed.

(** [update] in closed form, for fields held by an object [o]. *)
Lemma update_run this name up o w :
  heap w !! cachedContent up = Some o ->
  update getHeaders service this name up w =
    match parseCacheName name with
    | Throw e => (Throw e, w)
    | Return segment =>
        let u := appendPath segment
                   (newCachedContentUrl UPDATE (apiKey this) (_requestOptions this)) in
        let u' := match updateMask up with
                  | Some mask =>
                      appendParam "update_mask"
                        (JsString.join "," (camelToSnake <$> mask)) u
                  | None => u
                  end in
        makeServerRequest service u' (getHeaders u') (Some (withTtl o))
          (mkWorld (<[freshFor (cachedContent up) (heap w) := withTtl o]> (heap w))
             (network w))
    end.
Proof.
  intros Hl. pose proof (fresh_not_allocated (cachedContent up) _ _ _ Hl) as Hne.
  unfold update, withTtl. run.
  destruct (parseCacheName name) as [segment|e]; [|reflexivity]. run.
  rewrite lookup_insert_ne by congruence. rewrite Hl. run.
  destruct (truthy (ttlSeconds o)); run; destruct (updateMask up); reflexivity.
Qed.

Lemma get_run this name w :
  get getHeaders service this name w =
    match parseCacheName name with
    | Throw e => (Throw e, w)
    | Return segment =>
        let u := appendPath segment
                   (newCachedContentUrl GET (apiKey this) (_requestOptions this)) in
        makeServerRequest service u (getHeaders u) None w
    end.
Proof. unfold get. run. destruct (parseCacheName name); reflexivity. Qed.

Lemma parseCacheName_nonempty (s : string) :
  s <> EmptyString -> exists segment, parseCacheName (Some s) = Return segment.
Proof. destruct s; [contradiction|]. intros _. eexists. reflexivity. Qed.

Lemma app_singleton_neq {A : Type} (xs : list A) (x : A) : xs <> xs ++ [x].
Proof.
  intros Heq. apply (f_equal length) in Heq.
  rewrite length_app in Heq. simpl in Heq. lia.
Qed.

(** The source's [camelToSnake] is the rewriting of the specification. *)
Lemma camelToSnake_snakeCase (field : string) : camelToSnake field = snakeCase field.
Proof.
  unfold camelToSnake, snakeCase.
  induction field as [|c field IH]; [reflexivity|].
  cbn [JsString.replaceClass list_ascii_of_string flat_map]. rewrite IH.
  unfold snakeChar. destruct (JsString.isUpperAZ c); reflexivity.
Qed.

Lemma lowerChar_alphabet :
  JsString.toLowerCase "ABCDEFGHIJKLMNOPQRSTUVWXYZ" = "abcdefghijklmnopqrstuvwxyz".
Proof. reflexivity. Qed.

(** C4. With an update mask [mask], every request that [update] sends has
    the single query parameter [update_mask], whose value is the field
    names of [mask], each one rewritten by [snakeCase] (an underscore and
    the lowercase letter in place of each uppercase letter), joined by
    commas; a request is sent whenever the cache name is not empty; and
    [expireTime] is rewritten to [expire_time]. *)
Theorem update_mask_snake_case this name up o w (mask : list string) :
  heap w !! cachedContent up = Some o ->
  updateMask up = Some mask ->
  (forall s, name = Some s -> s <> EmptyString ->
     exists req, network (update getHeaders service this name up w).2 = network w ++ [req])
  /\ (forall req,
        network (update getHeaders service this name up w).2 = network w ++ [req] ->
        searchParams (url req) = [("update_mask", JsString.join "," (snakeCase <$> mask))])
  /\ camelToSnake "expireTime" = "expire_time".
Proof.
  intros Hl Hmask. rewrite (update_run _ _ _ _ _ Hl), Hmask.
  split; [|split; [|reflexivity]].
  - intros s -> Hs. destruct (parseCacheName_nonempty s Hs) as [segment ->].
    cbv zeta. rewrite makeServerRequest_world. simpl. eauto.
  - intros req. destruct (parseCacheName name) as [segment|e]; simpl.
    + rewrite makeServerRequest_world. simpl.
      intros Heq. apply app_inv_head in Heq. injection Heq as <-. simpl.
      do 2 f_equal. f_equal. apply list_fmap_ext. intros _ field _.
      apply camelToSnake_snakeCase.
    + intros Heq. destruct (app_singleton_neq _ _ Heq).
Qed.

(** C8. Without an update mask, every request that [update] sends has no
    query parameter at all (so no [update_mask]); a request is sent
    whenever the cache name is not empty. *)
Theorem update_without_mask_no_param this name up o w :
  heap w !! cachedContent up = Some o ->
  updateMask up = None ->
  (forall s, name = Some s -> s <> EmptyString ->
     exists req, network (update getHeaders service this name up w).2 = network w ++ [req])
  /\ (forall req,
        network (update getHeaders service this name up w).2 = network w ++ [req] ->
        searchParams (url req) = []).
Proof.
  intros Hl Hmask. rewrite (update_run _ _ _ _ _ Hl), Hmask.
  split.
  - intros s -> Hs. destruct (parseCacheName_nonempty s Hs) as [segment ->].
    cbv zeta. rewrite makeServerRequest_world. simpl. eauto.
  - intros req. destruct (parseCacheName name) as [segment|e]; simpl.
    + rewrite makeServerRequest_world. simpl.
      intros Heq. apply app_inv_head in Heq. injection Heq as <-. reflexivity.
    + intros Heq. destruct (app_singleton_neq _ _ Heq).
Qed.

(** C10 (as amended). When the fields given to [update] hold a
    [ttlSeconds] other than 0 and [NaN] together with an [expireTime],
    [update] throws no [GoogleGenerativeAIRequestInputError]; and for a
    cache name that is not empty it sends a body in which [ttl] is the
    number, as JavaScript prints it, followed by [s], [ttlSeconds] is gone
    and [expireTime] is as given. *)
Theorem update_converts_ttl_keeps_expiry this name up o w (x : number) (e : string) :
  heap w !! cachedContent up = Some o ->
  ttlSeconds o = Some x -> x <> NaN -> x <> zero ->
  expireTime o = Some e ->
  (forall msg,
     (update getHeaders service this name up w).1
       <> Throw (GoogleGenerativeAIRequestInputError msg))
  /\ (forall s, name = Some s -> s <> EmptyString ->
        exists req b,
          network (update getHeaders service this name up w).2 = network w ++ [req]
          /\ body req = Some b
          /\ ttl b = Some (numberToString x +:+ "s")
          /\ ttlSeconds b = None
          /\ expireTime b = Some e).
Proof.
  intros Hl Ht Hnan Hn He. rewrite (update_run _ _ _ _ _ Hl).
  split.
  - intros msg. unfold parseCacheName.
    destruct (negb (truthy name)); [discriminate|].
    destruct name as [s|]; [|discriminate].
    cbv zeta. apply makeServerRequest_no_input_error.
  - intros s -> Hs. destruct (parseCacheName_nonempty s Hs) as [segment ->].
    cbv zeta. rewrite makeServerRequest_world. simpl.
    do 2 eexists. split; [reflexivity|]. simpl.
    unfold withTtl. rewrite Ht, (truthy_number_Some x Hnan Hn). simpl.
    repeat split. exact He.
Qed.

(** C7. [get("cachedContents/abc123")] and [get("abc123")] do the same:
    each issues one GET request whose path, below any collection path
    [base], ends in [/abc123]. *)
Theorem get_prefixed_same_as_bare this w (base : string) :
  get getHeaders service this (Some "cachedContents/abc123") w
    = get getHeaders service this (Some "abc123") w
  /\ exists req,
       network (get getHeaders service this (Some "cachedContents/abc123") w).2
         = network w ++ [req]
       /\ taskMethod (task (url req)) = HttpGET
       /\ pathname base (url req) = base +:+ "/abc123".
Proof.
  rewrite !get_run.
  change (parseCacheName (Some "cachedContents/abc123")) with (@Return string "abc123").
  change (parseCacheName (Some "abc123")) with (@Return string "abc123").
  split; [reflexivity|]. cbv zeta. rewrite makeServerRequest_world. simpl.
  eexists. split; [reflexivity|]. split; reflexivity.
Qed.

(** C2, at a name whose identifier contains the prefix text again:
    [get("cachedContents/cachedContents/abc")] appends the empty segment,
    not the identifier [cachedContents/abc], and
    [get("cachedContents/a-cachedContents/b")] appends [a-], not
    [a-cachedContents/b]. *)
Theorem get_repeated_prefix_segment this w :
  (exists req,
     network (get getHeaders service this (Some "cachedContents/cachedContents/abc") w).2
       = network w ++ [req]
     /\ pathSegments (url req) = [EmptyString])
  /\ (exists req,
        network (get getHeaders service this (Some "cachedContents/a-cachedContents/b") w).2
          = network w ++ [req]
        /\ pathSegments (url req) = ["a-"]).
Proof.
  rewrite !get_run.
  change (parseCacheName (Some "cachedContents/cachedContents/abc"))
    with (@Return string EmptyString).
  change (parseCacheName (Some "cachedContents/a-cachedContents/b"))
    with (@Return string "a-").
  cbv beta iota zeta. rewrite !makeServerRequest_world. simpl.
  split; eexists; split; reflexivity.
Qed.

Lemma delete_run this name w :
  delete_ getHeaders service this name w =
    match parseCacheName name with
    | Throw e => (Throw e, w)
    | Return segment =>
        let u := appendPath segment
                   (newCachedContentUrl DELETE (apiKey this) (_requestOptions this)) in
        match makeServerRequest service u (getHeaders u) None w with
        | (Return _, w') => (Return tt, w')
        | (Throw e, w') => (Throw e, w')
        end
    end.
Proof. unfold delete_. run. destruct (parseCacheName name); reflexivity. Qed.

Lemma delete_world this name segment w :
  parseCacheName name = Return segment ->
  (delete_ getHeaders service this name w).2 =
    (makeServerRequest service
       (appendPath segment (newCachedContentUrl DELETE (apiKey this) (_requestOptions this)))
       (getHeaders
          (appendPath segment
             (newCachedContentUrl DELETE (apiKey this) (_requestOptions this))))
       None w).2.
Proof.
  intros Hp. rewrite delete_run, Hp. cbv zeta.
  destruct (makeServerRequest _ _ _ _ _) as [[?|?] ?]; reflexivity.
Qed.

(** X1. A name that is absent or empty is refused by [get], [update] and
    [delete] with a [GoogleGenerativeAIError]; no request has been issued,
    and the cached-content objects are as they were. *)
Theorem cache_name_missing_rejected this name up w :
  name = None \/ name = Some EmptyString ->
  exists msg,
    get getHeaders service this name w = (Throw (GoogleGenerativeAIError msg), w)
    /\ update getHeaders service this name up w = (Throw (GoogleGenerativeAIError msg), w)
    /\ delete_ getHeaders service this name w = (Throw (GoogleGenerativeAIError msg), w).
Proof.
  intros [-> | ->]; eexists; (split; [|split]); reflexivity.
Qed.

(** X2. For an identifier [id] in which the text [cachedContents/] does not
    occur, the name [cachedContents/id] and, when [id] is not empty, the
    bare name [id] both make [get], [update] and [delete] issue one
    request whose only appended path segment is [id]. *)
Theorem cache_name_segment this name (id : string) up o w :
  JsString.includes id "cachedContents/" = false ->
  name = Some ("cachedContents/" +:+ id) \/ (name = Some id /\ id <> EmptyString) ->
  heap w !! cachedContent up = Some o ->
  (exists req,
     network (get getHeaders service this name w).2 = network w ++ [req]
     /\ task (url req) = GET /\ pathSegments (url req) = [id])
  /\ (exists req,
        network (update getHeaders service this name up w).2 = network w ++ [req]
        /\ task (url req) = UPDATE /\ pathSegments (url req) = [id])
  /\ (exists req,
        network (delete_ getHeaders service this name w).2 = network w ++ [req]
        /\ task (url req) = DELETE /\ pathSegments (url req) = [id]
        /\ body req = None).
Proof.
  intros Hinc Hname Hl.
  assert (Hp : parseCacheName name = Return id).
  { destruct Hname as [-> | [-> Hne]].
    - now apply parseCacheName_prefixed.
    - apply parseCacheName_bare; [exact Hne|].
      destruct id as [|c id]; [contradiction|].
      change (JsString.includes (String c id) "cachedContents/")
        with (String.prefix "cachedContents/" (String c id)
              || JsString.includes id "cachedContents/") in Hinc.
      now apply orb_false_iff in Hinc as [Hpre _]. }
  rewrite get_run, (update_run _ _ _ _ _ Hl), (delete_world _ _ _ _ Hp), Hp.
  cbv zeta. rewrite !makeServerRequest_world. simpl.
  split; [|split]; eexists; (split; [reflexivity|]); simpl; repeat split;
    destruct (updateMask up); reflexivity.
Qed.

(** X3. [list] adds [pageSize] and [pageToken] as query parameters when they
    are given (a number other than 0 and [NaN], printed as JavaScript
    prints it; a non-empty string), and none when no [listParams] are
    passed; the request has no body. *)
Theorem list_query_params this (x : number) (t : string) w :
  x <> NaN -> x <> zero -> t <> EmptyString ->
  network (list_ getHeaders service this (Some (mkListParams (Some x) (Some t))) w).2
    = network w ++
        [let u := appendParam "pageToken" t
                    (appendParam "pageSize" (numberToString x)
                       (newCachedContentUrl LIST (apiKey this) (_requestOptions this))) in
         mkRequest u (getHeaders u) None]
  /\ network (list_ getHeaders service this None w).2
       = network w ++
           [let u := newCachedContentUrl LIST (apiKey this) (_requestOptions this) in
            mkRequest u (getHeaders u) None].
Proof.
  intros Hnan Hn Ht. unfold list_. simpl.
  pose proof (truthy_number_Some x Hnan Hn) as Hx.
  change (truthy (Some x)) with (truthy x) in Hx. rewrite Hx.
  destruct t as [|c t]; [contradiction|].
  change (truthy (String c t)) with true. cbv iota.
  rewrite !makeServerRequest_world. split; reflexivity.
Qed.

(** *** Frame: a method writes only to its own copy *)

Lemma writesOnly_ret {A : Type} l' (a : A) : writesOnly l' (@ret RequestOptions Headers A a).
Proof. intros w l0 _. reflexivity. Qed.

Lemma writesOnly_throw {A : Type} l' e : writesOnly l' (@throw RequestOptions Headers A e).
Proof. intros w l0 _. reflexivity. Qed.

Lemma writesOnly_lift {A : Type} l' (c : Completion A) :
  writesOnly l' (@lift RequestOptions Headers A c).
Proof. intros w l0 _. reflexivity. Qed.

Lemma writesOnly_receiver {A : Type} l' (x : option A) :
  writesOnly l' (@receiver RequestOptions Headers A x).
Proof. intros w l0 _. destruct x; reflexivity. Qed.

Lemma writesOnly_readObject l' l : writesOnly l' (@readObject RequestOptions Headers l).
Proof. intros w l0 _. unfold readObject. destruct (heap w !! l); reflexivity. Qed.

Lemma writesOnly_writeObject l' f : writesOnly l' (@writeObject RequestOptions Headers l' f).
Proof. intros w l0 Hne. unfold writeObject. simpl. now apply lookup_alter_ne. Qed.

Lemma writesOnly_makeServerRequest l' u h b :
  writesOnly l' (makeServerRequest service u h b).
Proof. intros w l0 _. now rewrite makeServerRequest_world. Qed.

Lemma writesOnly_bind {A B : Type} l'
    (m : @M RequestOptions Headers A) (k : A -> @M RequestOptions Headers B) :
  writesOnly l' m -> (forall a, writesOnly l' (k a)) -> writesOnly l' (bind m k).
Proof.
  intros Hm Hk w l0 Hne. unfold bind.
  specialize (Hm w l0 Hne). destruct (m w) as [[a|e] w1]; simpl in *.
  - now rewrite (Hk a w1 l0 Hne).
  - exact Hm.
Qed.

Lemma writesOnly_if {A : Type} l' (c : bool) (m1 m2 : @M RequestOptions Headers A) :
  writesOnly l' m1 -> writesOnly l' m2 -> writesOnly l' (if c then m1 else m2).
Proof. destruct c; auto. Qed.

(** An object allocated before [spread] is untouched by [spread] followed
    by a computation that writes only to the copy. *)
Lemma spread_then_frame {A : Type} (src : loc)
    (k : loc -> @M RequestOptions Headers A) w l0 o0 :
  (forall l', writesOnly l' (k l')) ->
  heap w !! l0 = Some o0 ->
  heap (bind (spread src) k w).2 !! l0 = Some o0.
Proof.
  intros Hk Hl0. unfold bind, spread. simpl.
  rewrite Hk by exact (fresh_not_allocated src _ _ _ Hl0). simpl.
  rewrite lookup_insert_ne; [exact Hl0|].
  intros Heq. exact (fresh_not_allocated src _ _ _ Hl0 (eq_sym Heq)).
Qed.

Ltac frame :=
  repeat first
    [ apply writesOnly_bind; [|intros ?]
    | apply writesOnly_if
    | apply writesOnly_ret
    | apply writesOnly_throw
    | apply writesOnly_lift
    | apply writesOnly_receiver
    | apply writesOnly_readObject
    | apply writesOnly_writeObject
    | apply writesOnly_makeServerRequest ].

(** C9. Whatever [create] and [update] are given and however they end,
    every object that existed before the call, the caller's options and
    update fields among them, has the same properties after it: the
    methods write to their copy only. *)
Theorem caller_objects_unchanged this l name up w l0 o0 :
  heap w !! l0 = Some o0 ->
  heap (create getHeaders service this l w).2 !! l0 = Some o0
  /\ heap (update getHeaders service this name up w).2 !! l0 = Some o0.
Proof.
  intros Hl0. split.
  - unfold create. apply spread_then_frame; [|exact Hl0].
    intros l'. unfold JSON_stringify. frame.
  - unfold update. cbv zeta. unfold bind at 1, lift.
    destruct (parseCacheName name) as [segment|e]; [|exact Hl0].
    apply spread_then_frame; [|exact Hl0].
    intros l'. unfold JSON_stringify. frame.
Qed.

(** *** Further properties of the methods *)

Lemma parseCacheName_no_input_error name msg :
  parseCacheName name <> Throw (GoogleGenerativeAIRequestInputError msg).
Proof.
  unfold parseCacheName. destruct (negb (truthy name)); [discriminate|].
  destruct name; discriminate.
Qed.

Lemma noInputError_bind {A B : Type}
    (m : @M RequestOptions Headers A) (k : A -> @M RequestOptions Headers B) :
  noInputError m -> (forall a, noInputError (k a)) -> noInputError (bind m k).
Proof.
  intros Hm Hk w msg. unfold bind. specialize (Hm w msg).
  destruct (m w) as [[a|e] w1]; simpl in *; [apply Hk|].
  intros Heq. apply Hm. injection Heq as ->. reflexivity.
Qed.

Lemma noInputError_if {A : Type} (c : bool) (m1 m2 : @M RequestOptions Headers A) :
  noInputError m1 -> noInputError m2 -> noInputError (if c then m1 else m2).
Proof. destruct c; auto. Qed.

Lemma noInputError_ret {A : Type} (a : A) : noInputError (@ret RequestOptions Headers A a).
Proof. intros w msg. discriminate. Qed.

Lemma noInputError_spread l : noInputError (@spread RequestOptions Headers l).
Proof. intros w msg. discriminate. Qed.

Lemma noInputError_readObject l : noInputError (@readObject RequestOptions Headers l).
Proof. intros w msg. unfold readObject. destruct (heap w !! l); discriminate. Qed.

Lemma noInputError_writeObject l f : noInputError (@writeObject RequestOptions Headers l f).
Proof. intros w msg. discriminate. Qed.

Lemma noInputError_parse name :
  noInputError (@lift RequestOptions Headers string (parseCacheName name)).
Proof. intros w msg. apply parseCacheName_no_input_error. Qed.

Lemma noInputError_makeServerRequest u h b : noInputError (makeServerRequest service u h b).
Proof. intros w msg. apply makeServerRequest_no_input_error. Qed.

Ltac no_input_error :=
  repeat first
    [ apply noInputError_bind; [|intros ?]
    | apply noInputError_if
    | apply noInputError_ret
    | apply noInputError_spread
    | apply noInputError_readObject
    | apply noInputError_writeObject
    | apply noInputError_parse
    | apply noInputError_makeServerRequest ].

(** X8. Only [create] validates its input: [list], [get], [update] and
    [delete] never throw a [GoogleGenerativeAIRequestInputError], whatever
    they are given. *)
Theorem only_create_validates this name up listParams w msg :
  (list_ getHeaders service this listParams w).1
    <> Throw (GoogleGenerativeAIRequestInputError msg)
  /\ (get getHeaders service this name w).1
       <> Throw (GoogleGenerativeAIRequestInputError msg)
  /\ (update getHeaders service this name up w).1
       <> Throw (GoogleGenerativeAIRequestInputError msg)
  /\ (delete_ getHeaders service this name w).1
       <> Throw (GoogleGenerativeAIRequestInputError msg).
Proof.
  split; [|split; [|split]].
  - apply makeServerRequest_no_input_error.
  - revert w msg. change (noInputError (get getHeaders service this name)).
    unfold get. cbv zeta. no_input_error.
  - revert w msg. change (noInputError (update getHeaders service this name up)).
    unfold update, JSON_stringify. cbv zeta. no_input_error.
  - revert w msg. change (noInputError (delete_ getHeaders service this name)).
    unfold delete_. cbv zeta. no_input_error.
Qed.

(** X9. The three outcomes of [create], in the order the checks run: a
    truthy [ttlSeconds] together with a truthy [expireTime] is refused
    with the message about the two fields, also when the model is missing
    as well; otherwise a missing or empty model is refused with the
    message about the model; otherwise exactly one request goes out, to
    the collection URL of the CREATE task, and no request goes out in the
    two refusals. *)
Theorem create_outcomes this l o w :
  heap w !! l = Some o ->
  (truthy (ttlSeconds o) && truthy (expireTime o) = true ->
   (create getHeaders service this l w).1
     = Throw (GoogleGenerativeAIRequestInputError
                "Cannot specify both `ttlSeconds` and `expireTime`. Choose one.")
   /\ network (create getHeaders service this l w).2 = network w)
  /\ (truthy (ttlSeconds o) && truthy (expireTime o) = false ->
      truthy (model o) = false ->
      (create getHeaders service this l w).1
        = Throw (GoogleGenerativeAIRequestInputError
                   "Cached content requires a `model` field.")
      /\ network (create getHeaders service this l w).2 = network w)
  /\ (truthy (ttlSeconds o) && truthy (expireTime o) = false ->
      truthy (model o) = true ->
      exists b,
        network (create getHeaders service this l w).2
          = network w ++
              [mkRequest (newCachedContentUrl CREATE (apiKey this) (_requestOptions this))
                 (getHeaders
                    (newCachedContentUrl CREATE (apiKey this) (_requestOptions this)))
                 (Some b)]).
Proof.
  intros Hl. rewrite (create_run _ _ _ _ Hl). cbv zeta.
  split; [|split].
  - intros ->. split; reflexivity.
  - intros -> Hm. destruct (model o) as [[|c m]|]; [| discriminate Hm |];
      split; reflexivity.
  - intros -> Hm. destruct (model o) as [[|c m]|]; [discriminate Hm | | discriminate Hm].
    rewrite makeServerRequest_world. simpl. eauto.
Qed.

Lemma models_prefix_has_slash (m : string) : JsString.includes ("models/" +:+ m) "/" = true.
Proof.
  apply includes_slash.
  change ("models/" +:+ m)
    with (String "m" (String "o" (String "d" (String "e" (String "l"
            (String "s" (String "/" m))))))).
  cbn [list_ascii_of_string In]. tauto.
Qed.

Lemma withTtl_falsy o : truthy (ttlSeconds (withTtl o)) = false.
Proof. unfold withTtl. destruct (truthy (ttlSeconds o)) eqn:Ht; [reflexivity | exact Ht]. Qed.

(** The body of a request that [create] has sent. *)
Lemma create_sent_body this l o w req :
  heap w !! l = Some o ->
  network (create getHeaders service this l w).2 = network w ++ [req] ->
  exists c m,
    model o = Some (String c m)
    /\ body req =
         Some (if JsString.includes (String c m) "/"
               then withTtl o
               else set_model ("models/" +:+ String c m) (withTtl o)).
Proof.
  intros Hl. rewrite (create_run _ _ _ _ Hl). cbv zeta.
  destruct (truthy (ttlSeconds o) && truthy (expireTime o)); simpl.
  { intros Heq. destruct (app_singleton_neq _ _ Heq). }
  destruct (model o) as [[|c m]|]; simpl;
    try (intros Heq; destruct (app_singleton_neq _ _ Heq)).
  rewrite makeServerRequest_world. simpl.
  intros Heq. apply app_inv_head in Heq. injection Heq as <-. simpl. eauto.
Qed.


(** X11. The body that [create] sends is already normalised: given back
    to [create] as options, it is sent again unchanged. *)
Theorem create_payload_fixpoint this l o w req b this2 l2 w2 :
  heap w !! l = Some o ->
  network (create getHeaders service this l w).2 = network w ++ [req] ->
  body req = Some b ->
  heap w2 !! l2 = Some b ->
  exists req2,
    network (create getHeaders service this2 l2 w2).2 = network w2 ++ [req2]
    /\ body req2 = Some b.
Proof.
  intros Hl Hsent Hb Hl2.
  destruct (create_sent_body _ _ _ _ _ Hl Hsent) as (c & m & Hm & Hbody).
  rewrite Hb in Hbody. injection Hbody as Hbody.
  assert (Hfalsy : truthy (ttlSeconds b) = false).
  { rewrite Hbody. destruct (JsString.includes (String c m) "/");
      [apply withTtl_falsy | apply (withTtl_falsy o)]. }
  assert (Hmodel : exists c' m', model b = Some (String c' m')
                                 /\ JsString.includes (String c' m') "/" = true).
  { rewrite Hbody. destruct (JsString.includes (String c m) "/") eqn:Hinc.
    - exists c, m. split; [|exact Hinc].
      unfold withTtl. destruct (truthy (ttlSeconds o)); exact Hm.
    - exists "m"%char, ("odels/" +:+ String c m). split; [reflexivity|].
      apply (models_prefix_has_slash (String c m)). }
  destruct Hmodel as (c' & m' & Hm' & Hinc').
  rewrite (create_run _ _ _ _ Hl2). cbv zeta.
  rewrite Hfalsy, Hm', Hinc'. cbn [andb].
  rewrite makeServerRequest_world. simpl.
  eexists. split; [reflexivity|]. simpl.
  unfold withTtl. now rewrite Hfalsy.
Qed.

(** X12. What [update] sends for fields held by [o]: the body keeps
    [model], [expireTime] and the properties it does not know as given
    (no [models/] is put in front of a model, unlike in [create]), and
    without a truthy [ttlSeconds] it keeps [ttl] and [ttlSeconds] too; the
    request is the only one issued, for the UPDATE task, with the parsed
    name as its only path segment. *)
Theorem update_payload_fields this (s : string) up o w :
  heap w !! cachedContent up = Some o ->
  s <> EmptyString ->
  exists req b segment,
    network (update getHeaders service this (Some s) up w).2 = network w ++ [req]
    /\ parseCacheName (Some s) = Return segment
    /\ task (url req) = UPDATE
    /\ pathSegments (url req) = [segment]
    /\ body req = Some b
    /\ model b = model o
    /\ expireTime b = expireTime o
    /\ others b = others o
    /\ (truthy (ttlSeconds o) = false -> ttl b = ttl o /\ ttlSeconds b = ttlSeconds o).
Proof.
  intros Hl Hs. rewrite (update_run _ _ _ _ _ Hl).
  destruct (parseCacheName_nonempty s Hs) as [segment Hp]. rewrite Hp. cbv zeta.
  rewrite makeServerRequest_world. simpl.
  exists (mkRequest
            match updateMask up with
            | Some mask =>
                appendParam "update_mask" (JsString.join "," (camelToSnake <$> mask))
                  (appendPath segment
                     (newCachedContentUrl UPDATE (apiKey this) (_requestOptions this)))
            | None =>
                appendPath segment
                  (newCachedContentUrl UPDATE (apiKey this) (_requestOptions this))
            end
            (getHeaders
               match updateMask up with
               | Some mask =>
                   appendParam "update_mask" (JsString.join "," (camelToSnake <$> mask))
                     (appendPath segment
                        (newCachedContentUrl UPDATE (apiKey this) (_requestOptions this)))
               | None =>
                   appendPath segment
                     (newCachedContentUrl UPDATE (apiKey this) (_requestOptions this))
               end)
            (Some (withTtl o))), (withTtl o), segment.
  split; [reflexivity|]. split; [reflexivity|].
  split; [destruct (updateMask up); reflexivity|].
  split; [destruct (updateMask up); reflexivity|].
  split; [reflexivity|].
  unfold withTtl. destruct (truthy (ttlSeconds o)); simpl; repeat split; discriminate.
Qed.

(** X13. The [update_mask] value can be taken apart again: for a mask
    that is not empty and whose names contain no comma, splitting the
    value that [update] sends at the commas gives the rewritten names, one
    for one and in order. *)
Theorem update_mask_round_trip this (s : string) up o w (mask : list string) :
  heap w !! cachedContent up = Some o ->
  updateMask up = Some mask ->
  s <> EmptyString ->
  mask <> [] ->
  Forall (fun field => ~ In ","%char (list_ascii_of_string field)) mask ->
  exists req value,
    network (update getHeaders service this (Some s) up w).2 = network w ++ [req]
    /\ searchParams (url req) = [("update_mask", value)]
    /\ JsString.split value "," = camelToSnake <$> mask.
Proof.
  intros Hl Hmask Hs Hne Hall. rewrite (update_run _ _ _ _ _ Hl), Hmask.
  destruct (parseCacheName_nonempty s Hs) as [segment ->]. cbv zeta.
  rewrite makeServerRequest_world. simpl.
  do 2 eexists. split; [reflexivity|]. split; [reflexivity|].
  apply split_join_comma.
  - destruct mask; [contradiction | discriminate].
  - apply Forall_fmap. eapply Forall_impl; [exact Hall|].
    intros field. apply camelToSnake_keeps_comma_free.
Qed.

(** X14. A call issues at most one request and leaves the requests
    issued before it in place; the request is for the task of the method,
    and its headers are those that [getHeaders] gives for its final URL
    (path segment and query parameters included). *)
Theorem one_request_per_call this l o name up o' listParams w :
  heap w !! l = Some o ->
  heap w !! cachedContent up = Some o' ->
  let issued (t : RpcTask) (after : list ServerRequest) :=
    after = network w
    \/ exists req, after = network w ++ [req]
                   /\ task (url req) = t
                   /\ headers req = getHeaders (url req) in
  issued CREATE (network (create getHeaders service this l w).2)
  /\ issued LIST (network (list_ getHeaders service this listParams w).2)
  /\ issued GET (network (get getHeaders service this name w).2)
  /\ issued UPDATE (network (update getHeaders service this name up w).2)
  /\ issued DELETE (network (delete_ getHeaders service this name w).2).
Proof.
  intros Hl Hl' issued. subst issued. cbv beta.
  split; [|split; [|split; [|split]]].
  - rewrite (create_run _ _ _ _ Hl). cbv zeta.
    destruct (truthy (ttlSeconds o) && truthy (expireTime o)); [now left|].
    destruct (model o) as [[|c m]|]; [now left | | now left].
    rewrite makeServerRequest_world. right. eexists. repeat split.
  - unfold list_. cbv zeta. rewrite makeServerRequest_world. right.
    eexists. split; [reflexivity|]. split; [|reflexivity]. simpl.
    destruct (listParams ≫= pageSize) as [n|]; [destruct (truthy n)|];
      (destruct (listParams ≫= pageToken) as [t|]; [destruct (truthy t)|]);
      reflexivity.
  - rewrite get_run. destruct (parseCacheName name) as [segment|e]; [|now left].
    cbv zeta. rewrite makeServerRequest_world. right. eexists. repeat split.
  - rewrite (update_run _ _ _ _ _ Hl').
    destruct (parseCacheName name) as [segment|e]; [|now left].
    cbv zeta. rewrite makeServerRequest_world. right.
    eexists. split; [reflexivity|]. split; [|reflexivity]. simpl.
    destruct (updateMask up); reflexivity.
  - destruct (parseCacheName name) as [segment|e] eqn:Hp.
    + rewrite (delete_world _ _ _ _ Hp), makeServerRequest_world. right.
      eexists. repeat split.
    + rewrite delete_run, Hp. now left.
Qed.

(** X15. [list] leaves out a [pageSize] of 0 or [NaN] and an empty
    [pageToken], as it does absent ones: the request then has no query
    parameter of that name. *)
Theorem list_omits_zero_and_empty this (size : option number) (token : option string) w :
  exists req,
    network (list_ getHeaders service this (Some (mkListParams size token)) w).2
      = network w ++ [req]
    /\ body req = None
    /\ pathSegments (url req) = []
    /\ (size = None \/ size = Some zero \/ size = Some NaN ->
        forall value, ~ In ("pageSize", value) (searchParams (url req)))
    /\ (token = None \/ token = Some EmptyString ->
        forall value, ~ In ("pageToken", value) (searchParams (url req))).
Proof.
  unfold list_. cbv zeta. rewrite makeServerRequest_world. simpl.
  eexists. split; [reflexivity|]. simpl.
  split; [reflexivity|].
  split.
  { destruct size as [n|]; [destruct (truthy n)|];
      (destruct token as [t|]; [destruct (truthy t)|]); reflexivity. }
  split.
  - intros Hsize value.
    assert (Hfalsy : match size with Some n => truthy n | None => false end = false)
      by (destruct Hsize as [-> | [-> | ->]]; reflexivity).
    destruct size as [n|]; [rewrite Hfalsy|];
      (destruct token as [t|]; [destruct (truthy t)|]); simpl;
      intros Hin; repeat destruct Hin as [Hin|Hin]; try discriminate; assumption.
  - intros Htoken value.
    assert (Hfalsy : match token with Some t => truthy t | None => false end = false)
      by (destruct Htoken as [-> | ->]; reflexivity).
    destruct token as [t|]; [rewrite Hfalsy|];
      (destruct size as [n|]; [destruct (truthy n)|]); simpl;
      intros Hin; repeat destruct Hin as [Hin|Hin]; try discriminate; assumption.
Qed.

(** *** A reference to no object

    [create(undefined)] and [update(name, {cachedContent: undefined})]
    read a property of [undefined]: a [TypeError], and no request. *)

Lemma create_undefined this l w :
  heap w !! l = None ->
  (create getHeaders service this l w).1
    = Throw (TypeError "Cannot read properties of undefined")
  /\ network (create getHeaders service this l w).2 = network w.
Proof.
  intros Hl. destruct (freshFor_spec l (heap w)) as [Hne _].
  unfold create. run. rewrite lookup_insert_ne by exact Hne.
  rewrite Hl. split; reflexivity.
Qed.

Lemma update_undefined this (s : string) up w :
  s <> EmptyString ->
  heap w !! cachedContent up = None ->
  (update getHeaders service this (Some s) up w).1
    = Throw (TypeError "Cannot read properties of undefined")
  /\ network (update getHeaders service this (Some s) up w).2 = network w.
Proof.
  intros Hs Hl. destruct (freshFor_spec (cachedContent up) (heap w)) as [Hne _].
  destruct (parseCacheName_nonempty s Hs) as [segment Hp].
  unfold update. run. rewrite Hp. run. rewrite lookup_insert_ne by exact Hne.
  rewrite Hl. split; reflexivity.
Qed.

End Properties.

(** ** The properties at sample calls *)

(** C1 as stated fails when [ttlSeconds] is 0: both fields are set, and
    [create] returns after sending a body that still has [ttlSeconds: 0]
    beside [expireTime]. *)
Lemma create_zero_ttl_with_expiry_sends :
  is_Some (ttlSeconds zeroTtlOptions)
  /\ is_Some (expireTime zeroTtlOptions)
  /\ (create noHeaders nullService sampleManager 1 (sampleWorld zeroTtlOptions)).1
       = Return JNull
  /\ network (create noHeaders nullService sampleManager 1 (sampleWorld zeroTtlOptions)).2
       = [mkRequest (newCachedContentUrl CREATE "API_KEY" None) tt
            (Some (mkFields (Some "models/gemini-1.5-flash") (Some zero) None
                     (Some "2030-01-01T00:00:00Z") ∅))].
Proof.
  split; [eexists; reflexivity|].
  split; [eexists; reflexivity|].
  split; vm_compute; reflexivity.
Qed.

(** Likewise for [NaN], the other falsy number: [create] sends the body
    with [ttlSeconds: NaN] beside [expireTime]. *)
Lemma create_nan_ttl_with_expiry_sends :
  network (create noHeaders nullService sampleManager 1
             (sampleWorld (mkFields (Some "gemini-1.5-flash") (Some NaN) None
                             (Some "2030-01-01T00:00:00Z") ∅))).2
    = [mkRequest (newCachedContentUrl CREATE "API_KEY" None) tt
         (Some (mkFields (Some "models/gemini-1.5-flash") (Some NaN) None
                  (Some "2030-01-01T00:00:00Z") ∅))].
Proof. vm_compute; reflexivity. Qed.

Lemma create_rejects_ttl_with_expiry_witness :
  exists msg,
    (create noHeaders nullService sampleManager 1 (sampleWorld bothOptions)).1
      = Throw (GoogleGenerativeAIRequestInputError msg)
    /\ network (create noHeaders nullService sampleManager 1 (sampleWorld bothOptions)).2
         = network (sampleWorld bothOptions).
Proof.
  apply (create_rejects_ttl_with_expiry noHeaders nullService sampleManager 1
           bothOptions (sampleWorld bothOptions) (Int 300 I) "2030-01-01T00:00:00Z");
    [reflexivity | reflexivity | discriminate | discriminate | reflexivity
    | discriminate].
Defined.

Lemma create_requires_model_witness :
  exists msg,
    (create noHeaders nullService sampleManager 1 (sampleWorld noModelOptions)).1
      = Throw (GoogleGenerativeAIRequestInputError msg)
    /\ network (create noHeaders nullService sampleManager 1 (sampleWorld noModelOptions)).2
         = network (sampleWorld noModelOptions).
Proof.
  apply (create_requires_model noHeaders nullService sampleManager 1
           noModelOptions (sampleWorld noModelOptions));
    reflexivity.
Defined.

Lemma create_model_normalized_witness :
  exists req b,
    network (create noHeaders nullService sampleManager 1 (sampleWorld flashOptions)).2
      = [req]
    /\ body req = Some b
    /\ model b = Some "models/gemini-1.5-flash".
Proof.
  destruct (create_model_normalized noHeaders nullService sampleManager 1
              flashOptions (sampleWorld flashOptions) "gemini-1.5-flash"
              eq_refl eq_refl) as [Hsend Hbody].
  destruct Hsend as [req Hreq]; [discriminate | reflexivity |].
  destruct (Hbody req Hreq) as (b & Hb & Hbare & _).
  exists req, b. split; [exact Hreq|]. split; [exact Hb|].
  apply Hbare. apply (proj1 (not_iff_compat (includes_slash _))).
  vm_compute. discriminate.
Defined.

Lemma create_flash_300_witness :
  exists req b,
    network (create noHeaders nullService sampleManager 1 (sampleWorld flashOptions)).2
      = network (sampleWorld flashOptions) ++ [req]
    /\ taskMethod (task (url req)) = HttpPOST
    /\ body req = Some b
    /\ model b = Some "models/gemini-1.5-flash"
    /\ ttl b = Some "300s"
    /\ ttlSeconds b = None
    /\ others b = others flashOptions.
Proof.
  apply (create_flash_300 noHeaders nullService sampleManager 1
           flashOptions (sampleWorld flashOptions));
    reflexivity.
Defined.

Lemma update_mask_snake_case_witness :
  exists req,
    network (update noHeaders nullService sampleManager (Some "cachedContents/abc123")
               (mkUpdateParams 1 (Some ["expireTime"; "ttl"; "displayName"]))
               (sampleWorld bothUpdateFields)).2 = [req]
    /\ searchParams (url req) = [("update_mask", "expire_time,ttl,display_name")].
Proof.
  destruct (update_mask_snake_case noHeaders nullService sampleManager
              (Some "cachedContents/abc123")
              (mkUpdateParams 1 (Some ["expireTime"; "ttl"; "displayName"]))
              bothUpdateFields (sampleWorld bothUpdateFields)
              ["expireTime"; "ttl"; "displayName"] eq_refl eq_refl)
    as (Hsend & Hmask & _).
  destruct (Hsend _ eq_refl) as [req Hreq]; [discriminate|].
  exists req. split; [exact Hreq|]. exact (Hmask req Hreq).
Defined.

Lemma update_without_mask_no_param_witness :
  exists req,
    network (update noHeaders nullService sampleManager (Some "abc123")
               (mkUpdateParams 1 None) (sampleWorld bothUpdateFields)).2 = [req]
    /\ searchParams (url req) = [].
Proof.
  destruct (update_without_mask_no_param noHeaders nullService sampleManager
              (Some "abc123") (mkUpdateParams 1 None)
              bothUpdateFields (sampleWorld bothUpdateFields) eq_refl eq_refl)
    as (Hsend & Hnone).
  destruct (Hsend _ eq_refl) as [req Hreq]; [discriminate|].
  exists req. split; [exact Hreq|]. exact (Hnone req Hreq).
Defined.

Lemma caller_objects_unchanged_witness :
  heap (create noHeaders nullService sampleManager 1 (sampleWorld flashOptions)).2
    !! 1%positive = Some flashOptions
  /\ heap (update noHeaders nullService sampleManager (Some "abc123")
             (mkUpdateParams 1 (Some ["ttl"])) (sampleWorld flashOptions)).2
       !! 1%positive = Some flashOptions.
Proof.
  apply (caller_objects_unchanged noHeaders nullService sampleManager 1
           (Some "abc123") (mkUpdateParams 1 (Some ["ttl"]))
           (sampleWorld flashOptions) 1 flashOptions).
  reflexivity.
Defined.

(** C10 as stated fails when [ttlSeconds] is 0: both fields are set, and
    the body that [update] sends still has [ttlSeconds: 0] and no [ttl]. *)
Lemma update_zero_ttl_not_converted :
  is_Some (ttlSeconds zeroTtlUpdateFields)
  /\ is_Some (expireTime zeroTtlUpdateFields)
  /\ network (update noHeaders nullService sampleManager (Some "abc123")
                (mkUpdateParams 1 None) (sampleWorld zeroTtlUpdateFields)).2
       = [mkRequest (appendPath "abc123" (newCachedContentUrl UPDATE "API_KEY" None)) tt
            (Some (mkFields None (Some zero) None (Some "2030-01-01T00:00:00Z") ∅))].
Proof.
  split; [eexists; reflexivity|].
  split; [eexists; reflexivity|].
  vm_compute; reflexivity.
Qed.

Lemma update_converts_ttl_keeps_expiry_witness :
  exists req b,
    network (update noHeaders nullService sampleManager (Some "abc123")
               (mkUpdateParams 1 None) (sampleWorld bothUpdateFields)).2 = [req]
    /\ body req = Some b
    /\ ttl b = Some "600s"
    /\ ttlSeconds b = None
    /\ expireTime b = Some "2030-01-01T00:00:00Z".
Proof.
  destruct (update_converts_ttl_keeps_expiry noHeaders nullService sampleManager
              (Some "abc123") (mkUpdateParams 1 None)
              bothUpdateFields (sampleWorld bothUpdateFields)
              (Int 600 I) "2030-01-01T00:00:00Z" eq_refl eq_refl
              ltac:(discriminate) ltac:(discriminate) eq_refl)
    as [_ Hsend].
  exact (Hsend _ eq_refl ltac:(discriminate)).
Defined.

Lemma cache_name_missing_rejected_witness :
  exists msg,
    get noHeaders nullService sampleManager (Some EmptyString) (sampleWorld bothUpdateFields)
      = (Throw (GoogleGenerativeAIError msg), sampleWorld bothUpdateFields)
    /\ update noHeaders nullService sampleManager (Some EmptyString)
         (mkUpdateParams 1 None) (sampleWorld bothUpdateFields)
       = (Throw (GoogleGenerativeAIError msg), sampleWorld bothUpdateFields)
    /\ delete_ noHeaders nullService sampleManager (Some EmptyString)
         (sampleWorld bothUpdateFields)
       = (Throw (GoogleGenerativeAIError msg), sampleWorld bothUpdateFields).
Proof.
  apply (cache_name_missing_rejected noHeaders nullService sampleManager
           (Some EmptyString) (mkUpdateParams 1 None) (sampleWorld bothUpdateFields)).
  right. reflexivity.
Defined.

Lemma cache_name_segment_witness :
  (exists req,
     network (get noHeaders nullService sampleManager (Some "cachedContents/abc123")
                (sampleWorld bothUpdateFields)).2 = [req]
     /\ task (url req) = GET /\ pathSegments (url req) = ["abc123"])
  /\ (exists req,
        network (update noHeaders nullService sampleManager (Some "cachedContents/abc123")
                   (mkUpdateParams 1 None) (sampleWorld bothUpdateFields)).2 = [req]
        /\ task (url req) = UPDATE /\ pathSegments (url req) = ["abc123"])
  /\ (exists req,
        network (delete_ noHeaders nullService sampleManager (Some "cachedContents/abc123")
                   (sampleWorld bothUpdateFields)).2 = [req]
        /\ task (url req) = DELETE /\ pathSegments (url req) = ["abc123"]
        /\ body req = None).
Proof.
  apply (cache_name_segment noHeaders nullService sampleManager
           (Some "cachedContents/abc123") "abc123" (mkUpdateParams 1 None)
           bothUpdateFields (sampleWorld bothUpdateFields));
    [reflexivity | left; reflexivity | reflexivity].
Defined.

Lemma list_query_params_witness :
  network (list_ noHeaders nullService sampleManager
             (Some (mkListParams (Some (Int 10 I)) (Some "next")))
             (sampleWorld noModelOptions)).2
    = [mkRequest (mkUrl LIST "API_KEY" None [] [("pageSize", "10"); ("pageToken", "next")])
         tt None]
  /\ network (list_ noHeaders nullService sampleManager None (sampleWorld noModelOptions)).2
       = [mkRequest (mkUrl LIST "API_KEY" None [] []) tt None].
Proof.
  apply (list_query_params noHeaders nullService sampleManager (Int 10 I) "next"
           (sampleWorld noModelOptions));
    discriminate.
Defined.

Lemma parseCacheName_idempotent_witness :
  parseCacheName (Some "abc123") = Return "abc123".
Proof.
  apply (parseCacheName_idempotent (Some "cachedContents/abc123") "abc123");
    [reflexivity | discriminate].
Defined.

Lemma create_outcomes_witness :
  (create noHeaders nullService sampleManager 1 (sampleWorld bothUpdateFields)).1
    = Throw (GoogleGenerativeAIRequestInputError
               "Cannot specify both `ttlSeconds` and `expireTime`. Choose one.")
  /\ network (create noHeaders nullService sampleManager 1 (sampleWorld bothUpdateFields)).2
       = network (sampleWorld bothUpdateFields).
Proof.
  destruct (create_outcomes noHeaders nullService sampleManager 1
              bothUpdateFields (sampleWorld bothUpdateFields) eq_refl)
    as (Hboth & _ & _).
  exact (Hboth eq_refl).
Defined.


Lemma create_payload_fixpoint_witness :
  exists req2,
    network (create noHeaders nullService sampleManager 1 (sampleWorld flashPayload)).2
      = network (sampleWorld flashPayload) ++ [req2]
    /\ body req2 = Some flashPayload.
Proof.
  apply (create_payload_fixpoint noHeaders nullService sampleManager 1
           flashOptions (sampleWorld flashOptions) flashRequest flashPayload
           sampleManager 1 (sampleWorld flashPayload));
    reflexivity.
Defined.

Lemma update_payload_fields_witness :
  exists req b segment,
    network (update noHeaders nullService sampleManager (Some "cachedContents/abc123")
               (mkUpdateParams 1 None) (sampleWorld flashOptions)).2
      = network (sampleWorld flashOptions) ++ [req]
    /\ parseCacheName (Some "cachedContents/abc123") = Return segment
    /\ task (url req) = UPDATE
    /\ pathSegments (url req) = [segment]
    /\ body req = Some b
    /\ model b = model flashOptions
    /\ expireTime b = expireTime flashOptions
    /\ others b = others flashOptions
    /\ (truthy (ttlSeconds flashOptions) = false ->
        ttl b = ttl flashOptions /\ ttlSeconds b = ttlSeconds flashOptions).
Proof.
  apply (update_payload_fields noHeaders nullService sampleManager
           "cachedContents/abc123" (mkUpdateParams 1 None)
           flashOptions (sampleWorld flashOptions));
    [reflexivity | discriminate].
Defined.

Lemma update_mask_round_trip_witness :
  exists req value,
    network (update noHeaders nullService sampleManager (Some "abc123")
               (mkUpdateParams 1 (Some ["expireTime"; "displayName"]))
               (sampleWorld bothUpdateFields)).2
      = network (sampleWorld bothUpdateFields) ++ [req]
    /\ searchParams (url req) = [("update_mask", value)]
    /\ JsString.split value "," = camelToSnake <$> ["expireTime"; "displayName"].
Proof.
  apply (update_mask_round_trip noHeaders nullService sampleManager "abc123"
           (mkUpdateParams 1 (Some ["expireTime"; "displayName"]))
           bothUpdateFields (sampleWorld bothUpdateFields)
           ["expireTime"; "displayName"]);
    [reflexivity | reflexivity | discriminate | discriminate |].
  repeat (constructor; [cbn; intuition discriminate|]). constructor.
Defined.

Lemma one_request_per_call_witness :
  let w := sampleWorld flashOptions in
  let issued (t : RpcTask) (after : list ServerRequest) :=
    after = network w
    \/ exists req, after = network w ++ [req]
                   /\ task (url req) = t
                   /\ headers req = noHeaders (url req) in
  issued CREATE (network (create noHeaders nullService sampleManager 1 w).2)
  /\ issued LIST (network (list_ noHeaders nullService sampleManager None w).2)
  /\ issued GET (network (get noHeaders nullService sampleManager (Some "abc123") w).2)
  /\ issued UPDATE
       (network (update noHeaders nullService sampleManager (Some "abc123")
                   (mkUpdateParams 1 None) w).2)
  /\ issued DELETE (network (delete_ noHeaders nullService sampleManager (Some "abc123") w).2).
Proof.
  apply (one_request_per_call noHeaders nullService sampleManager 1 flashOptions
           (Some "abc123") (mkUpdateParams 1 None) flashOptions None
           (sampleWorld flashOptions));
    reflexivity.
Defined.
